(** * text-2-sql: schema discovery and instruction generation

    A shallow embedding of [agent_instruction_generator.py]: the object-store
    sampler [process_folder], the local-file sampler [analyze_csv_files], the
    Athena readers [get_all_tables] and [get_table_schema] with their polling
    helper [_wait_for_query_execution], and the composer
    [generate_instruction]; followed by the properties the specification
    states about them. *)

From Stdlib Require Import Ascii ZArith Lia Permutation.
From stdpp Require Import gmap strings list.

Set Warnings "-register-all,-clear-no-such-hyp".

Local Open Scope Z_scope.
Local Open Scope nat_scope.

(** ** Python values used by the module *)

(** What [json.loads] can return. A number is kept as an integer: no
    function of the module looks inside a value. *)
Inductive json : Type :=
  | JNull
  | JBool (b : bool)
  | JInt (n : Z)
  | JString (s : string)
  | JArray (xs : list json)
  | JObject (kvs : list (string * json)).

(** A decoded mapping, in insertion order, as a Python [dict] is. *)
Abbreviation record := (list (string * json)).

Definition keys (d : record) : list string := map fst d.

(** [bytes]: one line of a decompressed object. *)
Abbreviation bytes := (list Byte.byte).

(** The exceptions that the module raises or lets through. [ValueError]
    stands for a [ValueError] that is not a [json.JSONDecodeError]. *)
Inductive exn : Type :=
  | Exception (msg : string)
  | UnicodeDecodeError
  | IndexError
  | KeyError (key : string)
  | ClientError (msg : string)
  | JSONDecodeError
  | ValueError (msg : string)
  | RecursionError.

Inductive Result (A : Type) : Type :=
  | Ok (a : A)
  | Raised (e : exn).
Arguments Ok {A} a.
Arguments Raised {A} e.

(** A Python iterator that may raise while it is consumed: the pages of a
    paginator, the lines of a [GzipFile]. *)
Inductive iter (A : Type) : Type :=
  | StopIteration
  | Raise (e : exn)
  | Yield (x : A) (rest : iter A).
Arguments StopIteration {A}.
Arguments Raise {A} e.
Arguments Yield {A} x rest.

(** The iterator that yields [l] and goes on as [it]. *)
Fixpoint yield_from {A} (l : list A) (it : iter A) : iter A :=
  match l with
  | [] => it
  | x :: l' => Yield x (yield_from l' it)
  end.

(** The items an iterator yields before it stops or raises. *)
Fixpoint yielded {A} (it : iter A) : list A :=
  match it with
  | Yield x rest => x :: yielded rest
  | _ => []
  end.

(** How an iterator ends. *)
Fixpoint outcome {A} (it : iter A) : option exn :=
  match it with
  | StopIteration => None
  | Raise e => Some e
  | Yield _ rest => outcome rest
  end.

(** ** Strings *)

Definition dq : string := String "034"%char EmptyString.

(** [s.endswith(suffix)] *)
Definition endswith (s suffix : string) : bool :=
  let n := String.length s in
  let m := String.length suffix in
  (m <=? n) && String.eqb (String.substring (n - m) m s) suffix.

(** [s.replace(old, new)] for one-character [old] and [new]. *)
Fixpoint replace (old new : ascii) (s : string) : string :=
  match s with
  | EmptyString => EmptyString
  | String c s' =>
      String (if Ascii.eqb c old then new else c) (replace old new s')
  end.

(** [s.split(sep)] for a one-character separator: never empty. *)
Fixpoint split (sep : ascii) (s : string) : list string :=
  match s with
  | EmptyString => [EmptyString]
  | String c s' =>
      if Ascii.eqb c sep then EmptyString :: split sep s'
      else match split sep s' with
           | h :: t => String c h :: t
           | [] => [String c EmptyString]
           end
  end.

(** [sep.join(parts)] *)
Definition join (sep : string) (parts : list string) : string :=
  String.concat sep parts.

(** ** The object-store sampler *)

(** The dictionary [process_folder] fills: the column set while the scan
    runs, and the sample record. *)
Record folder_state : Type := FolderState {
  fs_columns : gset string;
  fs_sample_data : option record
}.

(** What [process_folder] returns: [list(columns)] and the sample. *)
Record FolderContext : Type := mkFolderContext {
  columns : list string;
  sample_data : option record
}.

(** The diagnostics the scan prints, by the object they name. *)
Inductive diagnostic : Type :=
  | UnexpectedJson (key : string)
  | ErrorDecodingLine (key : string)
  | ErrorProcessingFile (key : string) (e : exn).

(** A page of [list_objects_v2]: its ['Contents'] keys, when it has any. *)
Abbreviation page := (option (list string)).

Record S3Client : Type := mkS3Client {
  (** [get_paginator('list_objects_v2').paginate(Bucket, Prefix, Delimiter='/')] *)
  paginate : string -> string -> iter page;
  (** [get_object(Bucket, Key)] read through [gzip.GzipFile], line by line *)
  get_object : string -> string -> Result (iter bytes)
}.

Section ProcessFolder.

(** [bytes.decode('utf-8')]; [None] is [UnicodeDecodeError]. *)
Variable decode_utf8 : bytes -> option string.
(** [json.loads]: the value, or the exception it raises, which is
    [JSONDecodeError] on a text that is not JSON and may be another one
    ([ValueError] on an integer of too many digits, [RecursionError] on a
    nesting too deep). *)
Variable json_loads : string -> Result json.

Definition scan : Type := folder_state * list diagnostic.

Definition print (d : diagnostic) (st : scan) : scan :=
  (st.1, st.2 ++ [d]).

(** The body of [if isinstance(json_data, dict)]. *)
Definition merge_record (d : record) (st : scan) : scan :=
  (FolderState
     (fs_columns st.1 ∪ list_to_set (keys d))
     (match fs_sample_data st.1 with
      | None => Some d
      | Some s => Some s
      end),
   st.2).

(** [for line in gz]: the state when the loop ends, and the exception
    that ended it, if one did. The inner [try] catches
    [json.JSONDecodeError] alone: what else a line raises ends the loop. *)
Fixpoint process_lines (key : string) (gz : iter bytes) (st : scan)
  : scan * option exn :=
  match gz with
  | StopIteration => (st, None)
  | Raise e => (st, Some e)
  | Yield line rest =>
      match decode_utf8 line with
      | None => (st, Some UnicodeDecodeError)
      | Some text =>
          match json_loads text with
          | Ok (JObject d) => process_lines key rest (merge_record d st)
          | Ok _ => process_lines key rest (print (UnexpectedJson key) st)
          | Raised JSONDecodeError =>
              process_lines key rest (print (ErrorDecodingLine key) st)
          | Raised e => (st, Some e)
          end
      end
  end.

Definition process_object (s3 : S3Client) (bucket_name key : string)
    (st : scan) : scan :=
  if endswith key ".json.gz" then
    match get_object s3 bucket_name key with
    | Raised e => print (ErrorProcessingFile key e) st
    | Ok gz =>
        match process_lines key gz st with
        | (st', None) => st'
        | (st', Some e) => print (ErrorProcessingFile key e) st'
        end
    end
  else st.

(** [for obj in page.get('Contents', [])] *)
Definition process_page (s3 : S3Client) (bucket_name : string)
    (p : page) (st : scan) : scan :=
  foldl (fun st key => process_object s3 bucket_name key st) st
        (default [] p).

Fixpoint process_pages (s3 : S3Client) (bucket_name : string)
    (pages : iter page) (st : scan) : Result scan :=
  match pages with
  | StopIteration => Ok st
  | Raise e => Raised e
  | Yield p rest =>
      process_pages s3 bucket_name rest (process_page s3 bucket_name p st)
  end.

Definition process_folder_scan (s3 : S3Client)
    (bucket_name folder_name : string) : Result scan :=
  process_pages s3 bucket_name (paginate s3 bucket_name folder_name)
    (FolderState ∅ None, []).

Definition process_folder (s3 : S3Client)
    (bucket_name folder_name : string) : Result FolderContext :=
  match process_folder_scan s3 bucket_name folder_name with
  | Ok st => Ok (mkFolderContext (elements (fs_columns st.1))
                                 (fs_sample_data st.1))
  | Raised e => Raised e
  end.

End ProcessFolder.

(** ** Exceptions as a monad *)

Definition result_bind {A B} (m : Result A) (k : A -> Result B) : Result B :=
  match m with
  | Ok a => k a
  | Raised e => Raised e
  end.

#[global] Instance Result_ret : MRet Result := fun _ a => Ok a.
#[global] Instance Result_bind : MBind Result :=
  fun _ _ k m => result_bind m k.

(** [l[0]] *)
Definition getitem0 {A} (l : list A) : Result A :=
  match l with
  | x :: _ => Ok x
  | [] => Raised IndexError
  end.

(** A [for] loop whose body may raise. *)
Fixpoint for_each {A S} (body : A -> S -> Result S) (l : list A) (s : S)
  : Result S :=
  match l with
  | [] => Ok s
  | x :: l' => s' ← body x s; for_each body l' s'
  end.

(** A list comprehension whose element expression may raise. *)
Fixpoint comprehension {A B} (f : A -> Result B) (l : list A)
  : Result (list B) :=
  match l with
  | [] => Ok []
  | x :: l' => y ← f x; ys ← comprehension f l'; Ok (y :: ys)
  end.

(** ** Python dictionaries with string keys, in insertion order *)

(** [d[k] = v]: an existing key keeps its place. *)
Fixpoint dict_set {V} (k : string) (v : V) (d : list (string * V))
  : list (string * V) :=
  match d with
  | [] => [(k, v)]
  | (k', v') :: d' =>
      if String.eqb k' k then (k', v) :: d' else (k', v') :: dict_set k v d'
  end.

(** [d.get(k)] *)
Fixpoint dict_get {V} (k : string) (d : list (string * V)) : option V :=
  match d with
  | [] => None
  | (k', v') :: d' => if String.eqb k' k then Some v' else dict_get k d'
  end.

(** The mapping from dataset name to its context. *)
Abbreviation data_context := (list (string * FolderContext)).

(** ** The local-file sampler *)

(** A path, by its components: the form in which [os.path.relpath] compares
    its two arguments. *)
Abbreviation path := (list string).

Inductive fs_entry : Type :=
  | FsFile (name : string)
  | FsDir (name : string) (entries : list fs_entry).

Definition dirnames (entries : list fs_entry) : list string :=
  flat_map (fun e => match e with FsDir n _ => [n] | FsFile _ => [] end)
           entries.

Definition filenames (entries : list fs_entry) : list string :=
  flat_map (fun e => match e with FsFile n => [n] | FsDir _ _ => [] end)
           entries.

(** One item of [os.walk]: [(dirpath, dirnames, filenames)]. *)
Abbreviation walk_item := (path * list string * list string)%type.

Fixpoint walk_entry (parent : path) (e : fs_entry) : list walk_item :=
  match e with
  | FsFile _ => []
  | FsDir n entries =>
      let top := parent ++ [n] in
      (top, dirnames entries, filenames entries)
        :: (fix subdirs (es : list fs_entry) : list walk_item :=
              match es with
              | [] => []
              | e' :: es' => walk_entry top e' ++ subdirs es'
              end) entries
  end.

(** [os.walk(root_folder)], top-down, where [entries] is what the root
    directory holds. *)
Definition os_walk (root_folder : path) (entries : list fs_entry)
  : list walk_item :=
  (root_folder, dirnames entries, filenames entries)
    :: flat_map (walk_entry root_folder) entries.

Fixpoint commonprefix_len (a b : path) : nat :=
  match a, b with
  | x :: a', y :: b' =>
      if String.eqb x y then S (commonprefix_len a' b') else 0
  | _, _ => 0
  end.

(** [os.path.relpath(p, start)] *)
Definition relpath (p start : path) : string :=
  let i := commonprefix_len start p in
  let rel_list := replicate (length start - i) ".." ++ drop i p in
  match rel_list with
  | [] => "."
  | _ => join "/" rel_list
  end.

(** A [pandas] table: the header and the rows. *)
Record DataFrame : Type := mkDataFrame {
  df_columns : list string;
  df_rows : list (list json)
}.

(** [df.head(n)] *)
Definition df_head (n : nat) (df : DataFrame) : DataFrame :=
  mkDataFrame (df_columns df) (take n (df_rows df)).

(** [df.to_dict(orient='records')] *)
Definition to_dict_records (df : DataFrame) : list record :=
  map (fun row => zip (df_columns df) row) (df_rows df).

Section AnalyzeCsv.

(** [pd.read_csv]; it raises on a file it cannot parse. *)
Variable read_csv : path -> Result DataFrame.

(** The body of the inner loop of [analyze_csv_files]. *)
Definition analyze_file (root_folder dirpath : path) (file : string)
    (ctx : data_context) : Result data_context :=
  if endswith file ".csv" then
    let file_path := dirpath ++ [file] in
    df ← read_csv file_path;
    let columns := df_columns df in
    sample_data ← getitem0 (to_dict_records (df_head 1 df));
    first ← getitem0 (split "/" (relpath file_path root_folder));
    let relative_path := replace " " "_" first in
    Ok (dict_set relative_path (mkFolderContext columns (Some sample_data))
                 ctx)
  else Ok ctx.

Definition analyze_dir (root_folder : path) (item : walk_item)
    (ctx : data_context) : Result data_context :=
  let '(dirpath, _, files) := item in
  for_each (analyze_file root_folder dirpath) files ctx.

Definition analyze_csv_files (root_folder : path)
    (entries : list fs_entry) : Result data_context :=
  for_each (analyze_dir root_folder) (os_walk root_folder entries) [].

End AnalyzeCsv.

(** ** The Athena readers *)

(** A result row is its ['Data'] list; a cell holds ['VarCharValue'] or
    lacks the key. *)
Abbreviation cell := (option string).
Abbreviation row := (list cell).

(** The [boto3] Athena client. The state the service reports for an
    execution depends on when it is asked: [get_query_execution id now]. *)
Record AthenaClient : Type := mkAthenaClient {
  (** [QueryString], [Database], [OutputLocation] to ['QueryExecutionId'] *)
  start_query_execution : string -> string -> string -> string;
  (** ['QueryExecution']['Status']['State'] *)
  get_query_execution : string -> nat -> string;
  (** ['ResultSet']['Rows'] *)
  get_query_results : string -> list row
}.

(** A computation that reads the clock and may advance it by sleeping;
    [None] when the fuel given to a [while] loop ran out. *)
Definition Timed (A : Type) : Type := nat -> option (Result A * nat).

Definition timed_ret {A} (a : A) : Timed A := fun now => Some (Ok a, now).

Definition timed_bind {A B} (m : Timed A) (k : A -> Timed B) : Timed B :=
  fun now =>
    match m now with
    | None => None
    | Some (Raised e, later) => Some (Raised e, later)
    | Some (Ok a, later) => k a later
    end.

Definition lift {A} (r : Result A) : Timed A := fun now => Some (r, now).

#[global] Instance Timed_ret : MRet Timed := fun _ a => timed_ret a.
#[global] Instance Timed_bind : MBind Timed :=
  fun _ _ k m => timed_bind m k.

(** [state in ['SUCCEEDED', 'FAILED', 'CANCELLED']] *)
Definition terminal (state : string) : bool :=
  String.eqb state "SUCCEEDED" || String.eqb state "FAILED"
  || String.eqb state "CANCELLED".

(** The [while True] loop: the state that broke it and the time of the
    request that returned it. Each turn that does not break ends in
    [time.sleep(1)]. *)
Fixpoint poll (fuel : nat) (athena : AthenaClient)
    (query_execution_id : string) (now : nat) : option (string * nat) :=
  match fuel with
  | 0 => None
  | S fuel' =>
      let state := get_query_execution athena query_execution_id now in
      if terminal state then Some (state, now)
      else poll fuel' athena query_execution_id (now + 1)
  end.

Definition _wait_for_query_execution (fuel : nat) (athena : AthenaClient)
    (query_execution_id : string) : Timed unit :=
  fun now =>
    match poll fuel athena query_execution_id now with
    | None => None
    | Some (state, later) =>
        if negb (String.eqb state "SUCCEEDED") then
          Some (Raised (Exception ("Query failed with state " +:+ state)),
                later)
        else Some (Ok tt, later)
    end.

(** [row['Data'][0]['VarCharValue']] *)
Definition first_value (r : row) : Result string :=
  c ← getitem0 r;
  match c with
  | Some v => Ok v
  | None => Raised (KeyError "VarCharValue")
  end.

(** [[row['Data'][0]['VarCharValue'] for row in rows[1:]]] *)
Definition first_values (rows : list row) : Result (list string) :=
  comprehension first_value (drop 1 rows).

Definition get_all_tables (fuel : nat) (athena : AthenaClient)
    (database_name athena_results_bucket : string) : Timed (list string) :=
  let query := "SHOW TABLES IN " +:+ database_name in
  let query_execution_id :=
    start_query_execution athena query database_name
      ("s3://" +:+ athena_results_bucket +:+ "/") in
  _ ← _wait_for_query_execution fuel athena query_execution_id;
  let results := get_query_results athena query_execution_id in
  lift (first_values results).

Definition athena_output_of (env : string) : string :=
  if String.eqb env "poc" then "athena-destination-store-texttosql"
  else "athena-destination-chatbot".

Definition get_table_schema (fuel : nat) (athena : AthenaClient)
    (database_name table_name env : string) : Timed (list string) :=
  let athena_output := athena_output_of env in
  let query := "DESCRIBE " +:+ database_name +:+ "." +:+ table_name in
  let query_execution_id :=
    start_query_execution athena query database_name
      ("s3://" +:+ athena_output +:+ "/") in
  _ ← _wait_for_query_execution fuel athena query_execution_id;
  let results := get_query_results athena query_execution_id in
  lift (first_values results).

(** ** The instruction composer *)

Definition preamble (database_name : string) : list string :=
  [ "Role: You are an advanced database querying agent crafted specifically for "
    +:+ "generating precise SQL queries for Amazon Athena concerning the "
    +:+ database_name +:+ ".";
    "Objective: Generate SQL queries to return data based on the provided schema "
    +:+ "and user request. Ultimately, answer the user's question regarding the data "
    +:+ "generated using SQL Query.";
    "1. Query Decomposition and Understanding:";
    "- Analyze the user’s request to understand the main objective.";
    "- Break down requests into sub-queries that can each address a part of the "
    +:+ "user's request, using the schema provided.";
    "2. SQL Query Creation:";
    "- For each sub-query, use the relevant tables and fields from the provided schema.";
    "- Construct SQL queries that are precise and tailored to retrieve the exact "
    +:+ "data required by the user’s request.";
    "- Use table joins when combining data from two or more tables based on related "
    +:+ "columns. For example, if data is split across multiple tables, each containing "
    +:+ "different attributes about a common entity (such as building id), you may need "
    +:+ "to use a table join. Table joins are also useful when filtering data based on "
    +:+ "conditions that span multiple tables. Lastly, table joins are useful when "
    +:+ "aggregating data from multiple tables or enriching a dataset with additional "
    +:+ "context or descriptive information stored in another table. The types of joins "
    +:+ "are: INNER JOIN, LEFT JOIN, RIGHT JOIN, and FULL JOIN.";
    "- Avoid joins if all the required data is available in a single table.";
    "3. Query Execution and Response:";
    "- Execute the constructed SQL queries against the Amazon Athena database.";
    "- Return the results of the SQL query in a format that answers the user's "
    +:+ "question, ensuring data integrity and accuracy.";
    "If you get the following Lambda error:";
    "<lambda_error>";
    "Lambda response exceeds maximum size 25KB: 123644";
    "</lambda_error>";
    "Then: LIMIT to 10 rows.";
    "The following examples illustrate the kind of queries you should be able to "
    +:+ "construct based on the available data:" ].

(** The line appended for one table. *)
Definition example_line (table_name : string) (cols : list string) : string :=
  let columns := join ", " (map (fun col => dq +:+ col +:+ dq) cols) in
  let sample_query :=
    "SELECT " +:+ columns +:+ " FROM " +:+ dq +:+ table_name +:+ dq
    +:+ " LIMIT 5;" in
  "- Table `" +:+ table_name +:+ "` example query: " +:+ sample_query.

(** [if data_context:] a mapping is true when it is there and not empty. *)
Definition truthy (data_context : option data_context) : bool :=
  match data_context with
  | Some (_ :: _) => true
  | _ => false
  end.

(** The [for table_name in tables] loop of the [else] branch. *)
Fixpoint describe_tables (fuel : nat) (athena : AthenaClient)
    (database_name env : string) (tables : list string)
    (instruction_parts : list string) : Timed (list string) :=
  match tables with
  | [] => mret instruction_parts
  | table_name :: tables' =>
      columns ← get_table_schema fuel athena database_name table_name env;
      describe_tables fuel athena database_name env tables'
        (instruction_parts ++ [example_line table_name columns])
  end.

(** [athena] is the client that [boto3.client('athena')] gives. *)
Definition generate_instruction (fuel : nat) (athena : AthenaClient)
    (database_name : string) (data_context : option data_context)
    (env : string) : Timed string :=
  let instruction_parts := preamble database_name in
  let athena_output := athena_output_of env in
  instruction_parts ←
    (if truthy data_context then
       mret (foldl (fun parts '(folder, context) =>
                      let table_name := folder in
                      parts ++ [example_line table_name (columns context)])
                   instruction_parts (default [] data_context))
     else
       tables ← get_all_tables fuel athena database_name athena_output;
       describe_tables fuel athena database_name env tables
         instruction_parts);
  mret (join " " instruction_parts).

(** ** What a scan has seen *)

Section Records.

Variable decode_utf8 : bytes -> option string.
Variable json_loads : string -> Result json.

(** The mapping records decoded from the lines of one object, in order.
    A line that is not UTF-8, or on which [json.loads] raises another
    exception than [JSONDecodeError], ends the reading of its object. *)
Fixpoint records_of_lines (lines : list bytes) : list record :=
  match lines with
  | [] => []
  | line :: rest =>
      match decode_utf8 line with
      | None => []
      | Some text =>
          match json_loads text with
          | Ok (JObject d) => d :: records_of_lines rest
          | Ok _ => records_of_lines rest
          | Raised JSONDecodeError => records_of_lines rest
          | Raised _ => []
          end
      end
  end.

Definition records_of_object (s3 : S3Client) (bucket_name key : string)
  : list record :=
  if endswith key ".json.gz" then
    match get_object s3 bucket_name key with
    | Ok gz => records_of_lines (yielded gz)
    | Raised _ => []
    end
  else [].

(** The keys listed under a prefix, page after page. *)
Definition listed_keys (s3 : S3Client) (bucket_name folder_name : string)
  : list string :=
  flat_map (default []) (yielded (paginate s3 bucket_name folder_name)).

(** Every mapping record decoded under a prefix, in the order of the scan. *)
Definition records_of_folder (s3 : S3Client)
    (bucket_name folder_name : string) : list record :=
  flat_map (records_of_object s3 bucket_name)
           (listed_keys s3 bucket_name folder_name).

End Records.

(** The union of the key sets of some records. *)
Definition all_keys (rs : list record) : gset string :=
  ⋃ (map (fun d => list_to_set (keys d)) rs).

(** The state of a scan once it has merged [rs], one after the other. *)
Definition absorb (rs : list record) (fs : folder_state) : folder_state :=
  FolderState (fs_columns fs ∪ all_keys rs)
              (match fs_sample_data fs with
               | Some s => Some s
               | None => head rs
               end).

(** ** Sample inputs *)

(** The bytes of an ASCII line. *)
Definition ascii_line (s : string) : bytes := String.list_byte_of_string s.

(** [bytes.decode('utf-8')] on the sample lines: a line holding the byte
    [0xff] is not UTF-8, an ASCII line decodes to itself. *)
Definition sample_decode_utf8 (b : bytes) : option string :=
  if existsb (Byte.eqb Byte.xff) b then None
  else Some (String.string_of_list_byte b).

(** Four lines of one object: three mappings and a cut line. *)
Definition line_id : string := "{" +:+ dq +:+ "id" +:+ dq +:+ ": 1}".
Definition line_fare : string :=
  "{" +:+ dq +:+ "fare" +:+ dq +:+ ": 7, " +:+ dq +:+ "id" +:+ dq +:+ ": 2}".
Definition line_tip : string := "{" +:+ dq +:+ "tip" +:+ dq +:+ ": null}".
Definition line_cut : string := "{" +:+ dq +:+ "id" +:+ dq +:+ ": ".
Definition line_list : string := "[1, 2]".

(** An integer of 4301 digits, one more than [int] converts from a
    string. *)
Definition line_huge : string :=
  (fix digits (n : nat) : string :=
     match n with
     | 0 => EmptyString
     | S n' => String "1" (digits n')
     end) 4301.

(** [json.loads] on the sample lines. *)
Definition sample_json_loads (text : string) : Result json :=
  if String.eqb text line_id then Ok (JObject [("id", JInt 1)])
  else if String.eqb text line_fare then
    Ok (JObject [("fare", JInt 7); ("id", JInt 2)])
  else if String.eqb text line_tip then Ok (JObject [("tip", JNull)])
  else if String.eqb text line_list then Ok (JArray [JInt 1; JInt 2])
  else if String.eqb text line_huge then
    Raised (ValueError
              "Exceeds the limit (4300 digits) for integer string conversion")
  else Raised JSONDecodeError.

(** A bucket with one prefix, listed in three pages: an object of three
    valid lines and a cut one, a text file, an object that cannot be
    fetched, and an object whose stream breaks after two lines. *)
Definition sample_s3 : S3Client :=
  mkS3Client
    (fun _ prefix =>
       if String.eqb prefix "trips/data/" then
         yield_from
           [ Some ["trips/data/a.json.gz"; "trips/data/notes.txt"];
             None;
             Some ["trips/data/b.json.gz"; "trips/data/c.json.gz"] ]
           StopIteration
       else StopIteration)
    (fun _ key =>
       if String.eqb key "trips/data/a.json.gz" then
         Ok (yield_from
               (map ascii_line [line_id; line_fare; line_cut; line_tip])
               StopIteration)
       else if String.eqb key "trips/data/c.json.gz" then
         Ok (yield_from (map ascii_line [line_list; line_id])
               (Raise (Exception "Compressed file ended early")))
       else Raised (ClientError "AccessDenied")).

(** An Athena service with two databases. In [sales] the listing of the
    tables succeeds after two time units and the description of [trips]
    after three; in [broken] the listing fails after one. Any other query
    stays in [RUNNING] for ever. The identifier of an execution is its
    query. *)
Definition sample_athena : AthenaClient :=
  mkAthenaClient
    (fun query _ _ => query)
    (fun id now =>
       if String.eqb id "SHOW TABLES IN sales" then
         (if now <? 2 then "RUNNING" else "SUCCEEDED")
       else if String.eqb id "DESCRIBE sales.trips" then
         (if now <? 3 then "QUEUED" else "SUCCEEDED")
       else if String.eqb id "SHOW TABLES IN broken" then
         (if now <? 1 then "QUEUED" else "FAILED")
       else "RUNNING")
    (fun id =>
       if String.eqb id "SHOW TABLES IN sales" then
         [ [Some "tab_name"]; [Some "trips"] ]
       else if String.eqb id "DESCRIBE sales.trips" then
         [ [Some "col_name"; Some "data_type"];
           [Some "id"; Some "bigint"];
           [Some "fare"; Some "double"] ]
       else []).

(** ** The states a wait observes *)

(** The wait that starts at [now] sees its first terminal state at its
    request number [n], made at time [now + n]. *)
Definition breaks_at (athena : AthenaClient) (query_execution_id : string)
    (now n : nat) : Prop :=
  terminal (get_query_execution athena query_execution_id (now + n)) = true
  /\ forall m, m < n ->
       terminal (get_query_execution athena query_execution_id (now + m))
       = false.

(** The execution that [get_all_tables] starts. *)
Definition show_tables_id (athena : AthenaClient)
    (database_name athena_results_bucket : string) : string :=
  start_query_execution athena ("SHOW TABLES IN " +:+ database_name)
    database_name ("s3://" +:+ athena_results_bucket +:+ "/").

(** The execution that [get_table_schema] starts. *)
Definition describe_id (athena : AthenaClient)
    (database_name table_name env : string) : string :=
  start_query_execution athena
    ("DESCRIBE " +:+ database_name +:+ "." +:+ table_name)
    database_name ("s3://" +:+ athena_output_of env +:+ "/").

(** What both readers do once the execution is started. *)
Definition read_first_column (fuel : nat) (athena : AthenaClient)
    (query_execution_id : string) : Timed (list string) :=
  _ ← _wait_for_query_execution fuel athena query_execution_id;
  lift (first_values (get_query_results athena query_execution_id)).

(** [s] occurs in [t]. *)
Definition contains (t s : string) : Prop :=
  exists before after, t = before +:+ s +:+ after.

(** The text that the instruction must hold for a table [trips] of columns
    [id] and [fare]. *)
Definition trips_example : string :=
  "Table `trips` example query: SELECT " +:+ dq +:+ "id" +:+ dq +:+ ", "
  +:+ dq +:+ "fare" +:+ dq +:+ " FROM " +:+ dq +:+ "trips" +:+ dq
  +:+ " LIMIT 5;".

(** The supplied context of one table [trips]. *)
Definition trips_context (sample : option record) : data_context :=
  [("trips", mkFolderContext ["id"; "fare"] sample)].

(** ** What the local-file sampler writes *)

(** A name without the path separator, as every file and directory name is. *)
Fixpoint no_sep (s : string) : bool :=
  match s with
  | EmptyString => true
  | String c s' => negb (Ascii.eqb c "/") && no_sep s'
  end.

(** The files that [analyze_csv_files] loads, in the order of the walk,
    each with the directory that holds it. *)
Definition csv_files (root_folder : path) (entries : list fs_entry)
  : list (path * string) :=
  flat_map (fun item : walk_item =>
              let '(dirpath, _, files) := item in
              map (pair dirpath)
                  (List.filter (fun file => endswith file ".csv") files))
           (os_walk root_folder entries).

(** The key and the context that one loaded file assigns. *)
Definition csv_entry (read_csv : path -> Result DataFrame)
    (root_folder : path) (f : path * string)
  : Result (string * FolderContext) :=
  let file_path := f.1 ++ [f.2] in
  df ← read_csv file_path;
  sample_data ← getitem0 (to_dict_records (df_head 1 df));
  first ← getitem0 (split "/" (relpath file_path root_folder));
  Ok (replace " " "_" first,
      mkFolderContext (df_columns df) (Some sample_data)).

(** The assignments [ws], made one after the other. *)
Definition write_all (ctx : data_context)
    (ws : list (string * FolderContext)) : data_context :=
  foldl (fun d kv => dict_set kv.1 kv.2 d) ctx ws.

(** A directory [data] that holds [zones.csv] and a directory
    [yellow taxi]; that one holds [jan.csv], [notes.txt] and a directory
    [2024] with [feb.csv]. *)
Definition sample_root : path := ["data"].

Definition sample_entries : list fs_entry :=
  [ FsDir "yellow taxi"
      [ FsFile "jan.csv"; FsFile "notes.txt";
        FsDir "2024" [FsFile "feb.csv"] ];
    FsFile "zones.csv" ].

Definition jan_frame : DataFrame :=
  mkDataFrame ["id"; "fare"] [[JInt 1; JInt 7]; [JInt 2; JInt 9]].

Definition feb_frame : DataFrame :=
  mkDataFrame ["id"; "tip"; "total"] [[JInt 3; JInt 1; JInt 12]].

Definition zones_frame : DataFrame :=
  mkDataFrame ["zone"] [[JString "A"]].

Definition sample_read_csv (p : path) : Result DataFrame :=
  if decide (p = ["data"; "yellow taxi"; "jan.csv"]) then Ok jan_frame
  else if decide (p = ["data"; "yellow taxi"; "2024"; "feb.csv"])
  then Ok feb_frame
  else if decide (p = ["data"; "zones.csv"]) then Ok zones_frame
  else Raised (Exception "No such file or directory").

(** ** The sampler of several prefixes *)

(** [s.rstrip(c)] for one character [c]. *)
Fixpoint rstrip (c : ascii) (s : string) : string :=
  match s with
  | EmptyString => EmptyString
  | String x s' =>
      match rstrip c s' with
      | EmptyString => if Ascii.eqb x c then EmptyString else String x EmptyString
      | r => String x r
      end
  end.

(** [l[i]] *)
Definition getitem {A} (l : list A) (i : nat) : Result A :=
  match l !! i with
  | Some x => Ok x
  | None => Raised IndexError
  end.

Fixpoint enumerate_from {A} (start : nat) (l : list A) : list (nat * A) :=
  match l with
  | [] => []
  | x :: l' => (start, x) :: enumerate_from (S start) l'
  end.

(** [enumerate(l)] *)
Definition enumerate {A} (l : list A) : list (nat * A) := enumerate_from 0 l.

(** The prefix scanned for a top-level folder. *)
Definition root_folder_of (folder : string) : string :=
  rstrip "/" folder +:+ "/data/".

Section AnalyzeJsonGz.

Variable decode_utf8 : bytes -> option string.
Variable json_loads : string -> Result json.
(** [boto3.client('s3', region_name=region)] *)
Variable boto3_client_s3 : string -> S3Client.

(** The body of the loop of [analyze_json_gz_files]. *)
Definition analyze_folder (s3_client : S3Client) (bucket_name : string)
    (top_level_root_folders : list string) (item : nat * string)
    (ctx : data_context) : Result data_context :=
  let '(i, root_folder) := item in
  folder_context ←
    process_folder decode_utf8 json_loads s3_client bucket_name root_folder;
  folder ← getitem top_level_root_folders i;
  Ok (dict_set folder folder_context ctx).

Definition analyze_json_gz_files (bucket_name : string)
    (top_level_root_folders : list string) (region : string)
  : Result data_context :=
  let s3_client := boto3_client_s3 region in
  let root_folders := map root_folder_of top_level_root_folders in
  for_each (analyze_folder s3_client bucket_name top_level_root_folders)
           (enumerate root_folders) [].

End AnalyzeJsonGz.

(** ** The crawler's data sources ([Prep_Data.py]) *)

Section PrepData.

(** The pages of [paginate(Bucket=bucket_name, Delimiter='/')] on the
    default client, each by the prefixes of its ['CommonPrefixes'], when it
    has any. *)
Variable paginate_prefixes : string -> iter (option (list string)).

(** [for page in ...: for prefix in ...: folders.add(prefix['Prefix'])] *)
Fixpoint collect_folders (pages : iter (option (list string)))
    (folders : gset string) : Result (gset string) :=
  match pages with
  | StopIteration => Ok folders
  | Raise e => Raised e
  | Yield p rest =>
      collect_folders rest
        (foldl (fun folders prefix => folders ∪ {[prefix]}) folders
               (default [] p))
  end.

Definition list_s3_folders (bucket_name : string) : Result (list string) :=
  folders ← collect_folders (paginate_prefixes bucket_name) ∅;
  Ok (elements folders).

(** The path of the data source of one folder. *)
Definition data_source_path (bucket_name folder : string) : string :=
  "s3://" +:+ bucket_name +:+ "/" +:+ folder +:+ "AWSDynamoDB/data/".

(** Each source is the dictionary [{"path": ...}]. *)
Definition get_s3_data_sources (bucket_name : string)
  : Result (list (list (string * string))) :=
  s3_top_level_folders ← list_s3_folders bucket_name;
  Ok (foldl (fun data_sources folder =>
               let path_dict := [("path", data_source_path bucket_name folder)] in
               data_sources ++ [path_dict])
            [] s3_top_level_folders).

End PrepData.

(** [c * n]: the character [c], [n] times. *)
Fixpoint pad (c : ascii) (n : nat) : string :=
  match n with
  | 0 => EmptyString
  | S n' => String c (pad c n')
  end.

(** The name and the context that one top-level folder assigns. *)
Definition folder_entry (decode_utf8 : bytes -> option string)
    (json_loads : string -> Result json) (s3_client : S3Client)
    (bucket_name folder : string) : Result (string * FolderContext) :=
  folder_context ←
    process_folder decode_utf8 json_loads s3_client bucket_name
      (root_folder_of folder);
  Ok (folder, folder_context).

(** A listing of top-level prefixes in three pages, [rides/] on two of them. *)
Definition sample_prefixes (bucket_name : string)
  : iter (option (list string)) :=
  yield_from [Some ["trips/"; "rides/"]; None; Some ["rides/"; "zones/"]]
             StopIteration.

(** [c in s] *)
Fixpoint occurs (c : ascii) (s : string) : bool :=
  match s with
  | EmptyString => false
  | String x s' => Ascii.eqb x c || occurs c s'
  end.

(** A directory [data] that holds [taxi zones.csv], [notes.txt] and a
    directory [yellow taxi] with [jan.csv]. *)
Definition sample_flat_entries : list fs_entry :=
  [ FsFile "taxi zones.csv"; FsFile "notes.txt";
    FsDir "yellow taxi" [FsFile "jan.csv"] ].

Definition sample_flat_read_csv (p : path) : Result DataFrame :=
  if decide (p = ["data"; "taxi zones.csv"]) then Ok zones_frame
  else if decide (p = ["data"; "yellow taxi"; "jan.csv"]) then Ok jan_frame
  else Raised (Exception "No such file or directory").

(** * Properties *)

(** ** The object-store sampler *)

Lemma all_keys_app (a b : list record) :
  all_keys (a ++ b) = all_keys a ∪ all_keys b.
Proof.
  unfold all_keys. rewrite map_app. apply union_list_app_L.
Qed.

Lemma absorb_nil (fs : folder_state) : absorb [] fs = fs.
Proof.
  destruct fs as [cols [s|]]; unfold absorb, all_keys; simpl;
    f_equal; set_solver.
Qed.

Lemma absorb_app (a b : list record) (fs : folder_state) :
  absorb (a ++ b) fs = absorb b (absorb a fs).
Proof.
  destruct fs as [cols smp]. unfold absorb; simpl. f_equal.
  - rewrite all_keys_app. set_solver.
  - destruct smp as [s|]; [done|]. by destruct a.
Qed.

Lemma absorb_cons (d : record) (rs : list record) (fs : folder_state) :
  absorb (d :: rs) fs = absorb rs (absorb [d] fs).
Proof. apply (absorb_app [d] rs). Qed.

Section ProcessFolderFacts.

Variable decode_utf8 : bytes -> option string.
Variable json_loads : string -> Result json.

Lemma merge_record_absorb (d : record) (st : scan) :
  (merge_record d st).1 = absorb [d] st.1.
Proof.
  destruct st as [[cols smp] out]. unfold merge_record, absorb, all_keys.
  simpl. f_equal. set_solver.
Qed.

Lemma process_lines_absorb (key : string) (gz : iter bytes) (st : scan) :
  (process_lines decode_utf8 json_loads key gz st).1.1
  = absorb (records_of_lines decode_utf8 json_loads (yielded gz)) st.1.
Proof.
  revert st. induction gz as [|e|line rest IH]; intros st; simpl.
  - by rewrite absorb_nil.
  - by rewrite absorb_nil.
  - destruct (decode_utf8 line) as [text|]; simpl;
      [|by rewrite absorb_nil].
    destruct (json_loads text) as [[| | | | |d]|[]]; simpl;
      rewrite ?IH, ?absorb_nil; try done.
    by rewrite merge_record_absorb, <- absorb_cons.
Qed.

Lemma process_object_absorb (s3 : S3Client) (bucket_name key : string)
    (st : scan) :
  (process_object decode_utf8 json_loads s3 bucket_name key st).1
  = absorb (records_of_object decode_utf8 json_loads s3 bucket_name key) st.1.
Proof.
  unfold process_object, records_of_object.
  destruct (endswith key ".json.gz"); [|by rewrite absorb_nil].
  destruct (get_object s3 bucket_name key) as [gz|e]; simpl;
    [|by rewrite absorb_nil].
  rewrite <- (process_lines_absorb key).
  by destruct (process_lines decode_utf8 json_loads key gz st) as [st' [e|]].
Qed.

Lemma process_keys_absorb (s3 : S3Client) (bucket_name : string)
    (ks : list string) (st : scan) :
  (foldl (fun st key => process_object decode_utf8 json_loads s3 bucket_name key st) st ks).1
  = absorb (flat_map (records_of_object decode_utf8 json_loads s3 bucket_name) ks) st.1.
Proof.
  revert st. induction ks as [|k ks IH]; intros st; simpl.
  - by rewrite absorb_nil.
  - by rewrite IH, process_object_absorb, absorb_app.
Qed.

Lemma process_pages_absorb (s3 : S3Client) (bucket_name : string)
    (pages : iter page) (st st' : scan) :
  process_pages decode_utf8 json_loads s3 bucket_name pages st = Ok st' ->
  st'.1 = absorb (flat_map (records_of_object decode_utf8 json_loads s3 bucket_name)
                           (flat_map (default []) (yielded pages))) st.1.
Proof.
  revert st. induction pages as [|e|p rest IH]; intros st; simpl.
  - intros [= <-]. by rewrite absorb_nil.
  - done.
  - intros H. rewrite (IH _ H). unfold process_page.
    by rewrite process_keys_absorb, flat_map_app, absorb_app.
Qed.

(** The scan returns exactly when the listing does not fail. *)
Lemma process_pages_returns (s3 : S3Client) (bucket_name : string)
    (pages : iter page) (st : scan) :
  match outcome pages with
  | None => exists st', process_pages decode_utf8 json_loads s3 bucket_name pages st = Ok st'
  | Some e => process_pages decode_utf8 json_loads s3 bucket_name pages st = Raised e
  end.
Proof.
  revert st. induction pages as [|e|p rest IH]; intros st; simpl;
    [eauto | done | apply IH].
Qed.

Lemma process_folder_absorb (s3 : S3Client)
    (bucket_name folder_name : string) (ctx : FolderContext) :
  process_folder decode_utf8 json_loads s3 bucket_name folder_name = Ok ctx ->
  let rs := records_of_folder decode_utf8 json_loads s3
              bucket_name folder_name in
  columns ctx = elements (all_keys rs) /\ sample_data ctx = head rs.
Proof.
  unfold process_folder, process_folder_scan.
  destruct (process_pages _ _ _ _ _ _) as [st|e] eqn:E; [|done].
  intros [= <-]; simpl. apply process_pages_absorb in E. rewrite E.
  unfold absorb; simpl. split; [|done].
  f_equal. set_solver.
Qed.

End ProcessFolderFacts.

Lemma elem_of_all_keys (k : string) (rs : list record) :
  k ∈ all_keys rs <-> exists d, d ∈ rs /\ k ∈ keys d.
Proof.
  unfold all_keys. rewrite elem_of_union_list. split.
  - intros (X & HX & Hk). apply list_elem_of_fmap in HX as (d & -> & Hd).
    exists d. split; [done|]. by apply elem_of_list_to_set in Hk.
  - intros (d & Hd & Hk). exists (list_to_set (keys d)). split.
    + apply list_elem_of_fmap. by exists d.
    + by apply elem_of_list_to_set.
Qed.

Lemma all_keys_perm (rs rs' : list record) :
  rs ≡ₚ rs' -> all_keys rs = all_keys rs'.
Proof.
  intros HP. apply set_eq. intros k. rewrite !elem_of_all_keys.
  split; intros (d & Hd & Hk); exists d; split; try done.
  - by rewrite <- HP.
  - by rewrite HP.
Qed.

Lemma records_of_folder_perm decode_utf8 json_loads (s3 s3' : S3Client)
    (bucket_name folder_name : string) :
  (forall key, get_object s3' bucket_name key = get_object s3 bucket_name key) ->
  listed_keys s3' bucket_name folder_name
    ≡ₚ listed_keys s3 bucket_name folder_name ->
  records_of_folder decode_utf8 json_loads s3' bucket_name folder_name
    ≡ₚ records_of_folder decode_utf8 json_loads s3 bucket_name folder_name.
Proof.
  intros Hget HP. unfold records_of_folder.
  assert (Hsame : forall ks,
    flat_map (records_of_object decode_utf8 json_loads s3' bucket_name) ks
    = flat_map (records_of_object decode_utf8 json_loads s3 bucket_name) ks).
  { intros ks. apply flat_map_ext. intros key.
    unfold records_of_object. by rewrite Hget. }
  rewrite Hsame. by apply Permutation_flat_map.
Qed.

(** C2. When [process_folder] returns, a name is among its ['columns']
    exactly when it is a key of some successfully decoded mapping record
    under the prefix, and no name is listed twice. The set is the same for
    any other scan whose decoded records are the same up to order, as when
    the same objects are listed in another order. *)
Theorem process_folder_columns_union decode_utf8 json_loads (s3 : S3Client)
    (bucket_name folder_name : string) (ctx : FolderContext) :
  process_folder decode_utf8 json_loads s3 bucket_name folder_name = Ok ctx ->
  let rs := records_of_folder decode_utf8 json_loads s3
              bucket_name folder_name in
  (forall k, k ∈ columns ctx <-> exists d, d ∈ rs /\ k ∈ keys d)
  /\ NoDup (columns ctx)
  /\ (forall s3' bucket' folder' ctx',
        process_folder decode_utf8 json_loads s3' bucket' folder' = Ok ctx' ->
        records_of_folder decode_utf8 json_loads s3' bucket' folder' ≡ₚ rs ->
        forall k, k ∈ columns ctx' <-> k ∈ columns ctx)
  /\ (forall s3' ctx',
        (forall key,
           get_object s3' bucket_name key = get_object s3 bucket_name key) ->
        listed_keys s3' bucket_name folder_name
          ≡ₚ listed_keys s3 bucket_name folder_name ->
        process_folder decode_utf8 json_loads s3' bucket_name folder_name
          = Ok ctx' ->
        forall k, k ∈ columns ctx' <-> k ∈ columns ctx).
Proof.
  intros H rs. apply process_folder_absorb in H as [Hcols _].
  fold rs in Hcols.
  assert (Hperm : forall s3' bucket' folder' ctx',
    process_folder decode_utf8 json_loads s3' bucket' folder' = Ok ctx' ->
    records_of_folder decode_utf8 json_loads s3' bucket' folder' ≡ₚ rs ->
    forall k, k ∈ columns ctx' <-> k ∈ columns ctx).
  { intros s3' bucket' folder' ctx' H' HP k.
    apply process_folder_absorb in H' as [Hcols' _].
    rewrite Hcols, Hcols', !elem_of_elements.
    by rewrite (all_keys_perm _ _ HP). }
  split; [|split; [|split]].
  - intros k. rewrite Hcols, elem_of_elements. apply elem_of_all_keys.
  - rewrite Hcols. apply NoDup_elements.
  - exact Hperm.
  - intros s3' ctx' Hget HP H'. apply (Hperm _ _ _ _ H').
    by apply records_of_folder_perm.
Qed.

Lemma process_folder_columns_union_witness :
  process_folder sample_decode_utf8 sample_json_loads sample_s3
    "bucket" "trips/data/"
  = Ok (mkFolderContext ["id"; "fare"; "tip"] (Some [("id", JInt 1)]))
  /\ forall k, k ∈ ["id"; "fare"; "tip"] <->
       exists d,
         d ∈ [ [("id", JInt 1)]; [("fare", JInt 7); ("id", JInt 2)];
               [("tip", JNull)]; [("id", JInt 1)] ]
         /\ k ∈ keys d.
Proof.
  split; [vm_compute; reflexivity|].
  apply (process_folder_columns_union sample_decode_utf8 sample_json_loads
           sample_s3 "bucket" "trips/data/"
           (mkFolderContext ["id"; "fare"; "tip"] (Some [("id", JInt 1)]))).
  vm_compute; reflexivity.
Defined.

Section SampleFacts.

Variable decode_utf8 : bytes -> option string.
Variable json_loads : string -> Result json.

Lemma absorb_keeps_sample (rs : list record) (fs : folder_state)
    (r : record) :
  fs_sample_data fs = Some r -> fs_sample_data (absorb rs fs) = Some r.
Proof. intros H. unfold absorb; simpl. by rewrite H. Qed.

Lemma process_lines_keeps_sample (key : string) (gz : iter bytes)
    (st : scan) (r : record) :
  fs_sample_data st.1 = Some r ->
  fs_sample_data (process_lines decode_utf8 json_loads key gz st).1.1
  = Some r.
Proof.
  intros H. rewrite process_lines_absorb. by apply absorb_keeps_sample.
Qed.

Lemma process_pages_keeps_sample (s3 : S3Client) (bucket_name : string)
    (pages : iter page) (st st' : scan) (r : record) :
  fs_sample_data st.1 = Some r ->
  process_pages decode_utf8 json_loads s3 bucket_name pages st = Ok st' ->
  fs_sample_data st'.1 = Some r.
Proof.
  intros H E. rewrite (process_pages_absorb _ _ _ _ _ _ _ E).
  by apply absorb_keeps_sample.
Qed.

(** The scan reads the client only through the listing of the prefix and
    the objects of the bucket. *)
Lemma process_pages_ext (s3 s3' : S3Client) (bucket_name : string)
    (pages : iter page) (st : scan) :
  (forall key,
     get_object s3 bucket_name key = get_object s3' bucket_name key) ->
  process_pages decode_utf8 json_loads s3 bucket_name pages st
  = process_pages decode_utf8 json_loads s3' bucket_name pages st.
Proof.
  intros Hget. revert st.
  induction pages as [|e|p rest IH]; intros st; simpl; try done.
  rewrite IH. f_equal. unfold process_page.
  generalize (default [] p) as ks. intros ks. revert st.
  induction ks as [|k ks IHk]; intros st; simpl; [done|].
  rewrite IHk. f_equal. unfold process_object. by rewrite Hget.
Qed.

End SampleFacts.

(** C3. The sample that [process_folder] returns is the first successfully
    decoded mapping record of the scan. A record sets ['sample_data'] only
    while it is [None]; once set, no later line, object or page changes it.
    Two scans over the same listing and the same objects return the same
    context. *)
Theorem process_folder_sample_first decode_utf8 json_loads :
  (forall s3 bucket_name folder_name ctx,
     process_folder decode_utf8 json_loads s3 bucket_name folder_name = Ok ctx ->
     sample_data ctx
     = head (records_of_folder decode_utf8 json_loads s3
               bucket_name folder_name))
  /\ (forall d st,
        fs_sample_data (merge_record d st).1
        = Some (default d (fs_sample_data st.1)))
  /\ (forall key gz st r,
        fs_sample_data st.1 = Some r ->
        fs_sample_data (process_lines decode_utf8 json_loads key gz st).1.1
        = Some r)
  /\ (forall s3 bucket_name pages st st' r,
        fs_sample_data st.1 = Some r ->
        process_pages decode_utf8 json_loads s3 bucket_name pages st = Ok st' ->
        fs_sample_data st'.1 = Some r)
  /\ (forall s3 s3' bucket_name folder_name,
        paginate s3 bucket_name folder_name
        = paginate s3' bucket_name folder_name ->
        (forall key,
           get_object s3 bucket_name key = get_object s3' bucket_name key) ->
        process_folder decode_utf8 json_loads s3 bucket_name folder_name
        = process_folder decode_utf8 json_loads s3' bucket_name folder_name).
Proof.
  split; [|split; [|split; [|split]]].
  - intros s3 bucket_name folder_name ctx H.
    by apply process_folder_absorb in H as [_ Hs].
  - intros d [[cols [s|]] out]; reflexivity.
  - intros key gz st r. apply process_lines_keeps_sample.
  - intros s3 bucket_name pages st st' r. apply process_pages_keeps_sample.
  - intros s3 s3' bucket_name folder_name Hpages Hget.
    unfold process_folder, process_folder_scan.
    by rewrite Hpages, (process_pages_ext _ _ s3 s3' _ _ _ Hget).
Qed.

Lemma process_folder_sample_first_witness :
  sample_data
    (mkFolderContext ["id"; "fare"; "tip"] (Some [("id", JInt 1)]))
  = head (records_of_folder sample_decode_utf8 sample_json_loads sample_s3
            "bucket" "trips/data/").
Proof.
  apply (proj1 (process_folder_sample_first sample_decode_utf8
                  sample_json_loads) sample_s3 "bucket" "trips/data/").
  vm_compute; reflexivity.
Defined.

Section SkipFacts.

Variable decode_utf8 : bytes -> option string.
Variable json_loads : string -> Result json.

(** How the reading of an object ends does not depend on the state. *)
Lemma process_lines_ending (key : string) (gz : iter bytes)
    (st st' : scan) :
  (process_lines decode_utf8 json_loads key gz st).2
  = (process_lines decode_utf8 json_loads key gz st').2.
Proof.
  revert st st'. induction gz as [|e|line rest IH]; intros st st'; simpl;
    try done.
  destruct (decode_utf8 line) as [text|]; [|done].
  destruct (json_loads text) as [[| | | | |d]|[]];
      first [apply IH | done].
Qed.

Lemma yielded_yield_from {A} (l : list A) (it : iter A) :
  yielded (yield_from l it) = l ++ yielded it.
Proof. induction l as [|x l IH]; simpl; [done|by rewrite IH]. Qed.

Lemma records_of_lines_skip (pre post : list bytes) (bad : bytes)
    (text : string) :
  decode_utf8 bad = Some text -> json_loads text = Raised JSONDecodeError ->
  records_of_lines decode_utf8 json_loads (pre ++ bad :: post)
  = records_of_lines decode_utf8 json_loads (pre ++ post).
Proof.
  intros Hd Hj. induction pre as [|l pre IH]; simpl.
  - by rewrite Hd, Hj.
  - destruct (decode_utf8 l) as [t|]; [|done].
    destruct (json_loads t) as [[| | | | |d]|[]];
      rewrite ?IH; done.
Qed.

Lemma process_lines_skip (key : string) (pre : list bytes) (bad : bytes)
    (text : string) (post : iter bytes) (st : scan) :
  decode_utf8 bad = Some text -> json_loads text = Raised JSONDecodeError ->
  (process_lines decode_utf8 json_loads key
     (yield_from pre (Yield bad post)) st).1.1
  = (process_lines decode_utf8 json_loads key (yield_from pre post) st).1.1
  /\ (process_lines decode_utf8 json_loads key
        (yield_from pre (Yield bad post)) st).2
     = (process_lines decode_utf8 json_loads key (yield_from pre post) st).2.
Proof.
  intros Hd Hj. split.
  - rewrite !process_lines_absorb, !yielded_yield_from. simpl.
    by rewrite (records_of_lines_skip _ _ _ _ Hd Hj).
  - revert st. induction pre as [|l pre IH]; intros st; simpl.
    + rewrite Hd, Hj. apply process_lines_ending.
    + destruct (decode_utf8 l) as [t|]; [|done].
      destruct (json_loads t) as [[| | | | |d]|[]];
      first [apply IH | done].
Qed.

Lemma process_page_skip (s3 : S3Client) (bucket_name key : string)
    (pre post : list string) (st : scan) :
  records_of_object decode_utf8 json_loads s3 bucket_name key = [] ->
  (process_page decode_utf8 json_loads s3 bucket_name
     (Some (pre ++ key :: post)) st).1
  = (process_page decode_utf8 json_loads s3 bucket_name
       (Some (pre ++ post)) st).1.
Proof.
  intros Hnone. unfold process_page; simpl.
  rewrite !process_keys_absorb, !flat_map_app. simpl.
  by rewrite Hnone.
Qed.

(** A line that raises past the inner [try] ends the reading: the state
    is that of the lines before it, and the loop ends with the exception of
    the first line that raised. *)
Lemma process_lines_break (key : string) (pre : list bytes) (bad : bytes)
    (post : iter bytes) (st : scan) (e : exn) :
  (decode_utf8 bad = None /\ e = UnicodeDecodeError)
  \/ (exists text,
        decode_utf8 bad = Some text /\ json_loads text = Raised e
        /\ e <> JSONDecodeError) ->
  process_lines decode_utf8 json_loads key
    (yield_from pre (Yield bad post)) st
  = ((process_lines decode_utf8 json_loads key
        (yield_from pre StopIteration) st).1,
     Some (default e
             (process_lines decode_utf8 json_loads key
                (yield_from pre StopIteration) st).2)).
Proof.
  intros Hbad. revert st. induction pre as [|l pre IH]; intros st; simpl.
  - destruct Hbad as [[-> ->]|(text & -> & -> & Hne)]; [done|].
    by destruct e.
  - destruct (decode_utf8 l) as [t|]; [|done].
    destruct (json_loads t) as [[| | | | |d]|[]];
      first [apply IH | done].
Qed.

Lemma process_page_objects (s3 : S3Client) (bucket_name key : string)
    (pre post : list string) (st : scan) :
  (process_page decode_utf8 json_loads s3 bucket_name
     (Some (pre ++ key :: post)) st).1
  = absorb (flat_map (records_of_object decode_utf8 json_loads s3
                        bucket_name) post)
      (absorb (records_of_object decode_utf8 json_loads s3 bucket_name key)
         (process_page decode_utf8 json_loads s3 bucket_name
            (Some pre) st).1).
Proof.
  unfold process_page; simpl.
  rewrite !process_keys_absorb, flat_map_app. simpl.
  by rewrite !absorb_app.
Qed.

End SkipFacts.

(** C4, as the code has it. A line on which [json.loads] raises
    [JSONDecodeError] is skipped: the columns, the sample and the way the
    reading of the object ends are those of the same object without the
    line. A line that raises anything else, because it is not UTF-8 or
    because [json.loads] raises another exception, ends the reading of its
    object: what the earlier lines gave is kept and the later lines are not
    read. An object that cannot be fetched, or whose stream fails before
    its first line, is skipped. Whatever happens in an object, the objects
    listed after it are scanned from the state it left, and what
    [process_folder] returns is made of the successfully decoded mapping
    records alone. *)
Theorem process_folder_skips_malformed decode_utf8 json_loads :
  (forall key pre bad text post st,
     decode_utf8 bad = Some text -> json_loads text = Raised JSONDecodeError ->
     (process_lines decode_utf8 json_loads key
        (yield_from pre (Yield bad post)) st).1.1
     = (process_lines decode_utf8 json_loads key (yield_from pre post) st).1.1
     /\ (process_lines decode_utf8 json_loads key
           (yield_from pre (Yield bad post)) st).2
        = (process_lines decode_utf8 json_loads key
             (yield_from pre post) st).2)
  /\ (forall key pre bad post st e,
        (decode_utf8 bad = None /\ e = UnicodeDecodeError)
        \/ (exists text,
              decode_utf8 bad = Some text /\ json_loads text = Raised e
              /\ e <> JSONDecodeError) ->
        process_lines decode_utf8 json_loads key
          (yield_from pre (Yield bad post)) st
        = ((process_lines decode_utf8 json_loads key
              (yield_from pre StopIteration) st).1,
           Some (default e
                   (process_lines decode_utf8 json_loads key
                      (yield_from pre StopIteration) st).2)))
  /\ (forall s3 bucket_name key e pre post st,
        get_object s3 bucket_name key = Raised e
        \/ get_object s3 bucket_name key = Ok (Raise e) ->
        (process_page decode_utf8 json_loads s3 bucket_name
           (Some (pre ++ key :: post)) st).1
        = (process_page decode_utf8 json_loads s3 bucket_name
             (Some (pre ++ post)) st).1)
  /\ (forall s3 bucket_name key pre post st,
        (process_page decode_utf8 json_loads s3 bucket_name
           (Some (pre ++ key :: post)) st).1
        = absorb (flat_map (records_of_object decode_utf8 json_loads s3
                              bucket_name) post)
            (absorb (records_of_object decode_utf8 json_loads s3
                       bucket_name key)
               (process_page decode_utf8 json_loads s3 bucket_name
                  (Some pre) st).1))
  /\ (forall s3 bucket_name folder_name ctx,
        process_folder decode_utf8 json_loads s3 bucket_name folder_name
        = Ok ctx ->
        let rs := records_of_folder decode_utf8 json_loads s3
                    bucket_name folder_name in
        (forall k, k ∈ columns ctx <-> exists d, d ∈ rs /\ k ∈ keys d)
        /\ sample_data ctx = head rs).
Proof.
  split; [|split; [|split; [|split]]].
  - intros key pre bad text post st. apply process_lines_skip.
  - intros key pre bad post st e. apply process_lines_break.
  - intros s3 bucket_name key e pre post st Hfail.
    apply process_page_skip. unfold records_of_object.
    destruct (endswith key ".json.gz"); [|done].
    by destruct Hfail as [-> | ->].
  - intros s3 bucket_name key pre post st. apply process_page_objects.
  - intros s3 bucket_name folder_name ctx H rs.
    apply process_folder_absorb in H as [Hcols Hs]. fold rs in Hcols, Hs.
    split; [|done].
    intros k. rewrite Hcols, elem_of_elements. apply elem_of_all_keys.
Qed.

(** A line that is not UTF-8 among three valid ones: the two lines after
    it are not read, and the columns are those of the first line alone,
    where the same object without that line gives all three. *)
Lemma process_folder_skips_malformed_counterexample :
  process_folder sample_decode_utf8 sample_json_loads
    (mkS3Client
       (fun _ _ => Yield (Some ["part.json.gz"]) StopIteration)
       (fun _ _ =>
          Ok (yield_from
                [ ascii_line line_id; [Byte.xff];
                  ascii_line line_fare; ascii_line line_tip ]
                StopIteration)))
    "bucket" "trips/data/"
  = Ok (mkFolderContext ["id"] (Some [("id", JInt 1)]))
  /\ process_folder sample_decode_utf8 sample_json_loads
       (mkS3Client
          (fun _ _ => Yield (Some ["part.json.gz"]) StopIteration)
          (fun _ _ =>
             Ok (yield_from
                   [ ascii_line line_id;
                     ascii_line line_fare; ascii_line line_tip ]
                   StopIteration)))
       "bucket" "trips/data/"
     = Ok (mkFolderContext ["id"; "fare"; "tip"] (Some [("id", JInt 1)])).
Proof. split; vm_compute; reflexivity. Qed.

(** The same with a line that holds an integer of 4301 digits, on which
    [json.loads] raises a [ValueError] that is not a [JSONDecodeError]. *)
Example huge_integer_line_ends_object :
  process_folder sample_decode_utf8 sample_json_loads
    (mkS3Client
       (fun _ _ => Yield (Some ["part.json.gz"]) StopIteration)
       (fun _ _ =>
          Ok (yield_from
                (map ascii_line [line_id; line_huge; line_fare; line_tip])
                StopIteration)))
    "bucket" "trips/data/"
  = Ok (mkFolderContext ["id"] (Some [("id", JInt 1)])).
Proof. vm_compute; reflexivity. Qed.

(** Three valid lines and a cut one: the cut line changes nothing. *)
Lemma process_folder_skips_malformed_witness :
  (process_lines sample_decode_utf8 sample_json_loads "trips/data/a.json.gz"
     (yield_from (map ascii_line [line_id; line_fare])
        (Yield (ascii_line line_cut)
           (Yield (ascii_line line_tip) StopIteration)))
     (FolderState ∅ None, [])).1.1
  = (process_lines sample_decode_utf8 sample_json_loads "trips/data/a.json.gz"
       (yield_from (map ascii_line [line_id; line_fare])
          (Yield (ascii_line line_tip) StopIteration))
       (FolderState ∅ None, [])).1.1.
Proof.
  apply (proj1 (process_folder_skips_malformed sample_decode_utf8
                  sample_json_loads)
           "trips/data/a.json.gz" (map ascii_line [line_id; line_fare])
           (ascii_line line_cut) line_cut
           (Yield (ascii_line line_tip) StopIteration)
           (FolderState ∅ None, [])).
  - vm_compute; reflexivity.
  - vm_compute; reflexivity.
Defined.

(** The columns of an object of three valid lines and a cut one. *)
Example three_valid_one_malformed :
  let s3 :=
    mkS3Client (fun _ _ => Yield (Some ["part.json.gz"]) StopIteration)
      (fun _ _ =>
         Ok (yield_from
               (map ascii_line [line_id; line_cut; line_fare; line_tip])
               StopIteration)) in
  process_folder sample_decode_utf8 sample_json_loads s3 "bucket" "trips/data/"
  = Ok (mkFolderContext ["id"; "fare"; "tip"] (Some [("id", JInt 1)])).
Proof. vm_compute; reflexivity. Qed.

(** A line that is not UTF-8 raises outside the inner [try]: the reading
    of its object stops there, and the scan goes on with the next object. *)
Example non_utf8_line_ends_object :
  let r :=
    process_lines sample_decode_utf8 sample_json_loads "part.json.gz"
      (yield_from [ascii_line line_id; [Byte.xff]; ascii_line line_tip]
         StopIteration)
      (FolderState ∅ None, []) in
  elements (fs_columns r.1.1) = ["id"] /\ r.2 = Some UnicodeDecodeError.
Proof. vm_compute. split; reflexivity. Qed.

(** ** The polling loop *)

Lemma poll_breaks (athena : AthenaClient) (id : string) (n : nat) :
  forall fuel now,
    breaks_at athena id now n -> n < fuel ->
    poll fuel athena id now
    = Some (get_query_execution athena id (now + n), now + n).
Proof.
  induction n as [|n IH]; intros fuel now [Hterm Hbefore] Hfuel;
    (destruct fuel as [|fuel]; [lia|]); simpl.
  - rewrite Nat.add_0_r in *. by rewrite Hterm.
  - pose proof (Hbefore 0 ltac:(lia)) as H0. rewrite Nat.add_0_r in H0.
    rewrite H0.
    replace (now + S n) with (now + 1 + n) in * by lia.
    apply IH; [|lia]. split; [done|].
    intros m Hm. replace (now + 1 + m) with (now + S m) by lia.
    apply Hbefore. lia.
Qed.

Lemma poll_running (athena : AthenaClient) (id : string) :
  forall fuel now,
    (forall m, m < fuel ->
       terminal (get_query_execution athena id (now + m)) = false) ->
    poll fuel athena id now = None.
Proof.
  induction fuel as [|fuel IH]; intros now H; simpl; [done|].
  pose proof (H 0 ltac:(lia)) as H0. rewrite Nat.add_0_r in H0. rewrite H0.
  apply IH. intros m Hm. replace (now + 1 + m) with (now + S m) by lia.
  apply H. lia.
Qed.

Lemma poll_inv (athena : AthenaClient) (id : string) :
  forall fuel now state later,
    poll fuel athena id now = Some (state, later) ->
    exists n, n < fuel /\ later = now + n
              /\ state = get_query_execution athena id later
              /\ breaks_at athena id now n.
Proof.
  induction fuel as [|fuel IH]; intros now state later; simpl; [done|].
  destruct (terminal (get_query_execution athena id now)) eqn:E.
  - intros [= <- <-]. exists 0. unfold breaks_at. rewrite !Nat.add_0_r.
    split; [lia|]. split; [done|]. split; [done|]. split; [done|].
    intros m Hm. lia.
  - intros H. apply IH in H as (n & Hn & -> & -> & Hterm & Hbefore).
    exists (S n). unfold breaks_at.
    replace (now + S n) with (now + 1 + n) by lia.
    split; [lia|]. split; [done|]. split; [done|]. split; [done|].
    intros [|m] Hm.
    + by rewrite Nat.add_0_r.
    + replace (now + S m) with (now + 1 + m) by lia. apply Hbefore. lia.
Qed.

Lemma wait_breaks (athena : AthenaClient) (id : string) (fuel now n : nat) :
  breaks_at athena id now n -> n < fuel ->
  _wait_for_query_execution fuel athena id now
  = let state := get_query_execution athena id (now + n) in
    if String.eqb state "SUCCEEDED" then Some (Ok tt, now + n)
    else Some (Raised (Exception ("Query failed with state " +:+ state)),
               now + n).
Proof.
  intros Hb Hf. unfold _wait_for_query_execution.
  rewrite (poll_breaks _ _ _ _ _ Hb Hf). simpl.
  by destruct (String.eqb _ "SUCCEEDED").
Qed.

(** Among the first [n] requests either one is the first to see a terminal
    state or none sees one. *)
Lemma breaks_or_running (athena : AthenaClient) (id : string) (now n : nat) :
  (exists k, k < n /\ breaks_at athena id now k)
  \/ (forall m, m < n ->
        terminal (get_query_execution athena id (now + m)) = false).
Proof.
  induction n as [|n [(k & Hk & Hb)|Hrun]].
  - right. intros m Hm. lia.
  - left. exists k. split; [lia|done].
  - destruct (terminal (get_query_execution athena id (now + n))) eqn:E.
    + left. exists n. split; [lia|]. by split.
    + right. intros m Hm. destruct (decide (m = n)) as [->|]; [done|].
      apply Hrun. lia.
Qed.

(** C8. The wait asks for the state at times [now], [now + 1], ... one
    unit apart. It ends, by returning or by raising, exactly when one of
    these requests sees [SUCCEEDED], [FAILED] or [CANCELLED], and then at
    the time of the first such request, however late that is; while the
    requests see no such state, no number of turns ends the loop. *)
Theorem wait_terminates_iff_terminal (athena : AthenaClient)
    (query_execution_id : string) (now : nat) :
  ((exists fuel,
      _wait_for_query_execution fuel athena query_execution_id now <> None)
   <-> exists n,
         terminal (get_query_execution athena query_execution_id (now + n))
         = true)
  /\ (forall n fuel,
        breaks_at athena query_execution_id now n -> n < fuel ->
        exists r,
          _wait_for_query_execution fuel athena query_execution_id now
          = Some (r, now + n))
  /\ (forall fuel,
        (forall m, m < fuel ->
           terminal (get_query_execution athena query_execution_id (now + m))
           = false) ->
        _wait_for_query_execution fuel athena query_execution_id now = None).
Proof.
  split; [|split].
  - split.
    + intros [fuel H]. unfold _wait_for_query_execution in H.
      destruct (poll fuel athena query_execution_id now) as [[state later]|]
        eqn:E; [|done].
      apply poll_inv in E as (n & _ & _ & _ & Hterm & _). by exists n.
    + intros [n Hn].
      assert (exists k, breaks_at athena query_execution_id now k)
        as [k Hk].
      { destruct (breaks_or_running athena query_execution_id now (S n))
          as [(k & _ & Hk)|Hrun]; [by exists k|].
        rewrite (Hrun n) in Hn; [done|lia]. }
      exists (S k). rewrite (wait_breaks _ _ _ _ k Hk); [|lia].
      simpl. by destruct (String.eqb _ _).
  - intros n fuel Hb Hf. rewrite (wait_breaks _ _ _ _ n Hb Hf). simpl.
    destruct (String.eqb _ _); eauto.
  - intros fuel H. unfold _wait_for_query_execution.
    by rewrite (poll_running _ _ _ _ H).
Qed.

Lemma wait_terminates_iff_terminal_witness :
  (exists r,
     _wait_for_query_execution 5 sample_athena "SHOW TABLES IN sales" 0
     = Some (r, 0 + 2))
  /\ _wait_for_query_execution 7 sample_athena "SELECT 1" 0 = None.
Proof.
  destruct (wait_terminates_iff_terminal sample_athena
              "SHOW TABLES IN sales" 0) as (_ & Hends & _).
  destruct (wait_terminates_iff_terminal sample_athena "SELECT 1" 0)
    as (_ & _ & Hstuck).
  split.
  - apply Hends; [|lia]. split; [vm_compute; reflexivity|].
    intros [|[|m]] Hm; [reflexivity | reflexivity | lia].
  - apply Hstuck. intros m _. vm_compute; reflexivity.
Defined.

(** ** The Athena readers *)

Lemma get_all_tables_unfold (fuel : nat) (athena : AthenaClient)
    (database_name athena_results_bucket : string) :
  get_all_tables fuel athena database_name athena_results_bucket
  = read_first_column fuel athena
      (show_tables_id athena database_name athena_results_bucket).
Proof. reflexivity. Qed.

Lemma get_table_schema_unfold (fuel : nat) (athena : AthenaClient)
    (database_name table_name env : string) :
  get_table_schema fuel athena database_name table_name env
  = read_first_column fuel athena
      (describe_id athena database_name table_name env).
Proof. reflexivity. Qed.

Lemma read_first_column_breaks (fuel : nat) (athena : AthenaClient)
    (id : string) (now n : nat) :
  breaks_at athena id now n -> n < fuel ->
  read_first_column fuel athena id now
  = let state := get_query_execution athena id (now + n) in
    if String.eqb state "SUCCEEDED"
    then Some (first_values (get_query_results athena id), now + n)
    else Some (Raised (Exception ("Query failed with state " +:+ state)),
               now + n).
Proof.
  intros Hb Hf. unfold read_first_column, mbind, Timed_bind, timed_bind.
  rewrite (wait_breaks _ _ _ _ _ Hb Hf). simpl.
  by destruct (String.eqb _ "SUCCEEDED").
Qed.

Lemma read_first_column_failed (fuel : nat) (athena : AthenaClient)
    (id : string) (now n : nat) (state : string) :
  breaks_at athena id now n -> n < fuel ->
  get_query_execution athena id (now + n) = state ->
  state = "FAILED" \/ state = "CANCELLED" ->
  read_first_column fuel athena id now
  = Some (Raised (Exception ("Query failed with state " +:+ state)), now + n).
Proof.
  intros Hb Hf Hs Hstate. rewrite (read_first_column_breaks _ _ _ _ _ Hb Hf).
  simpl. rewrite Hs. by destruct Hstate as [-> | ->].
Qed.

Lemma read_first_column_ok (fuel : nat) (athena : AthenaClient)
    (id : string) (now later : nat) (values : list string) :
  read_first_column fuel athena id now = Some (Ok values, later) ->
  get_query_execution athena id later = "SUCCEEDED"
  /\ first_values (get_query_results athena id) = Ok values.
Proof.
  unfold read_first_column, mbind, Timed_bind, timed_bind,
    _wait_for_query_execution.
  destruct (poll fuel athena id now) as [[state t]|] eqn:E; [|done].
  apply poll_inv in E as (n & _ & -> & -> & _).
  destruct (String.eqb _ "SUCCEEDED") eqn:Es; simpl; [|done].
  apply String.eqb_eq in Es. unfold lift. by intros [= -> <-].
Qed.

(** C5. When the first terminal state that a reader sees is [FAILED] or
    [CANCELLED], the reader raises an exception whose message ends with
    that state and returns no list; a reader that returns a list saw
    [SUCCEEDED]. *)
Theorem readers_raise_unless_succeeded (fuel : nat) (athena : AthenaClient)
    (database_name athena_results_bucket table_name env : string)
    (now : nat) :
  (forall n state,
     let id := show_tables_id athena database_name athena_results_bucket in
     breaks_at athena id now n -> n < fuel ->
     get_query_execution athena id (now + n) = state ->
     state = "FAILED" \/ state = "CANCELLED" ->
     get_all_tables fuel athena database_name athena_results_bucket now
     = Some (Raised (Exception ("Query failed with state " +:+ state)),
             now + n))
  /\ (forall n state,
        let id := describe_id athena database_name table_name env in
        breaks_at athena id now n -> n < fuel ->
        get_query_execution athena id (now + n) = state ->
        state = "FAILED" \/ state = "CANCELLED" ->
        get_table_schema fuel athena database_name table_name env now
        = Some (Raised (Exception ("Query failed with state " +:+ state)),
                now + n))
  /\ (forall tables later,
        get_all_tables fuel athena database_name athena_results_bucket now
        = Some (Ok tables, later) ->
        get_query_execution athena
          (show_tables_id athena database_name athena_results_bucket) later
        = "SUCCEEDED")
  /\ (forall cols later,
        get_table_schema fuel athena database_name table_name env now
        = Some (Ok cols, later) ->
        get_query_execution athena
          (describe_id athena database_name table_name env) later
        = "SUCCEEDED").
Proof.
  split; [|split; [|split]].
  - intros n state id. rewrite get_all_tables_unfold.
    apply read_first_column_failed.
  - intros n state id. rewrite get_table_schema_unfold.
    apply read_first_column_failed.
  - intros tables later. rewrite get_all_tables_unfold.
    intros H. by apply read_first_column_ok in H as [? _].
  - intros cols later. rewrite get_table_schema_unfold.
    intros H. by apply read_first_column_ok in H as [? _].
Qed.

Lemma readers_raise_unless_succeeded_witness :
  get_all_tables 5 sample_athena "broken" "results" 0
  = Some (Raised (Exception ("Query failed with state " +:+ "FAILED")), 0 + 1).
Proof.
  apply (proj1 (readers_raise_unless_succeeded 5 sample_athena
                  "broken" "results" "trips" "poc" 0) 1 "FAILED").
  - split; [vm_compute; reflexivity|].
    intros [|m] Hm; [reflexivity | lia].
  - lia.
  - vm_compute; reflexivity.
  - by left.
Defined.

Lemma first_value_ok (r : row) (v : string) :
  first_value r = Ok v <-> r !! 0 = Some (Some v).
Proof.
  unfold first_value. destruct r as [|[c|] r]; simpl;
    split; intros H; congruence.
Qed.

Lemma comprehension_ok {A B} (f : A -> Result B) (l : list A)
    (ys : list B) :
  comprehension f l = Ok ys <-> Forall2 (fun x y => f x = Ok y) l ys.
Proof.
  revert ys. induction l as [|x l IH]; intros ys; simpl.
  - split.
    + intros [= <-]. constructor.
    + intros H. by inversion H.
  - unfold mbind, Result_bind. destruct (f x) as [y|e] eqn:E; simpl.
    + destruct (comprehension f l) as [ys'|e'] eqn:E'; simpl.
      * split.
        -- intros [= <-]. constructor; [done|]. by apply IH.
        -- intros H. inversion H as [|? y0 ? ys0 Hy Hys]; subst.
           apply IH in Hys. congruence.
      * split; [done|].
        intros H. inversion H as [|? y0 ? ys0 Hy Hys]; subst.
        apply IH in Hys. congruence.
    + split; [done|].
      intros H. inversion H as [|? y0 ? ys0 Hy Hys]; subst. congruence.
Qed.

Lemma first_values_ok (rows : list row) (values : list string) :
  first_values rows = Ok values
  <-> Forall2 (fun r v => r !! 0 = Some (Some v)) (drop 1 rows) values.
Proof.
  unfold first_values. rewrite comprehension_ok.
  split; intros H; (eapply Forall2_impl; [exact H|]);
    intros r v; apply first_value_ok.
Qed.

Lemma first_values_short (rows : list row) :
  length rows <= 1 -> first_values rows = Ok [].
Proof.
  destruct rows as [|h [|r rows]]; simpl; intros H; try done. lia.
Qed.

Lemma read_first_column_succeeded (fuel : nat) (athena : AthenaClient)
    (id : string) (now n : nat) :
  breaks_at athena id now n -> n < fuel ->
  get_query_execution athena id (now + n) = "SUCCEEDED" ->
  read_first_column fuel athena id now
  = Some (first_values (get_query_results athena id), now + n).
Proof.
  intros Hb Hf Hs. rewrite (read_first_column_breaks _ _ _ _ _ Hb Hf).
  simpl. by rewrite Hs.
Qed.

(** C10. Once the execution has succeeded, each reader returns, in the
    order of the rows, the value of the first cell of every row after the
    first one; a result set of one row or of none gives the empty list. *)
Theorem readers_return_first_cells (fuel : nat) (athena : AthenaClient)
    (database_name athena_results_bucket table_name env : string)
    (now n : nat) :
  (let id := show_tables_id athena database_name athena_results_bucket in
   let rows := get_query_results athena id in
   breaks_at athena id now n -> n < fuel ->
   get_query_execution athena id (now + n) = "SUCCEEDED" ->
   (forall values,
      Forall2 (fun r v => r !! 0 = Some (Some v)) (drop 1 rows) values ->
      get_all_tables fuel athena database_name athena_results_bucket now
      = Some (Ok values, now + n))
   /\ (length rows <= 1 ->
       get_all_tables fuel athena database_name athena_results_bucket now
       = Some (Ok [], now + n)))
  /\ (let id := describe_id athena database_name table_name env in
      let rows := get_query_results athena id in
      breaks_at athena id now n -> n < fuel ->
      get_query_execution athena id (now + n) = "SUCCEEDED" ->
      (forall values,
         Forall2 (fun r v => r !! 0 = Some (Some v)) (drop 1 rows) values ->
         get_table_schema fuel athena database_name table_name env now
         = Some (Ok values, now + n))
      /\ (length rows <= 1 ->
          get_table_schema fuel athena database_name table_name env now
          = Some (Ok [], now + n))).
Proof.
  split.
  - intros id rows Hb Hf Hs. subst id rows. rewrite get_all_tables_unfold.
    rewrite (read_first_column_succeeded _ _ _ _ _ Hb Hf Hs). split.
    + intros values Hv. by apply first_values_ok in Hv as ->.
    + intros Hlen. by rewrite (first_values_short _ Hlen).
  - intros id rows Hb Hf Hs. subst id rows.
    rewrite get_table_schema_unfold.
    rewrite (read_first_column_succeeded _ _ _ _ _ Hb Hf Hs). split.
    + intros values Hv. by apply first_values_ok in Hv as ->.
    + intros Hlen. by rewrite (first_values_short _ Hlen).
Qed.

Lemma readers_return_first_cells_witness :
  get_table_schema 5 sample_athena "sales" "trips" "poc" 0
  = Some (Ok ["id"; "fare"], 0 + 3).
Proof.
  apply (proj2 (readers_return_first_cells 5 sample_athena
                  "sales" "results" "trips" "poc" 0 3)).
  - split; [vm_compute; reflexivity|].
    intros [|[|[|m]]] Hm; [reflexivity | reflexivity | reflexivity | lia].
  - lia.
  - vm_compute; reflexivity.
  - vm_compute. repeat constructor.
Defined.

(** ** The instruction composer *)

Lemma append_assoc (a b c : string) : (a +:+ b) +:+ c = a +:+ (b +:+ c).
Proof.
  induction a as [|x a IH]; [reflexivity|].
  change (String x ((a +:+ b) +:+ c) = String x (a +:+ b +:+ c)).
  by rewrite IH.
Qed.

Lemma append_nil_r (a : string) : a +:+ "" = a.
Proof.
  induction a as [|x a IH]; [reflexivity|].
  change (String x (a +:+ "") = String x a). by rewrite IH.
Qed.

Lemma join_snoc (sep : string) (l : list string) (x : string) :
  l <> [] -> join sep (l ++ [x]) = join sep l +:+ sep +:+ x.
Proof.
  unfold join. induction l as [|a [|b l] IH]; intros Hne; [done|done|].
  change (String.concat sep ((a :: b :: l) ++ [x]))
    with (a +:+ sep +:+ String.concat sep ((b :: l) ++ [x])).
  rewrite IH by done.
  change (String.concat sep (a :: b :: l))
    with (a +:+ sep +:+ String.concat sep (b :: l)).
  by rewrite !append_assoc.
Qed.

Lemma generate_instruction_trips (fuel : nat) (athena : AthenaClient)
    (database_name env : string) (sample : option record) (now : nat) :
  generate_instruction fuel athena database_name
    (Some (trips_context sample)) env now
  = Some (Ok (join " " (preamble database_name)
              +:+ " " +:+ "- " +:+ trips_example), now).
Proof.
  unfold generate_instruction, trips_context. simpl truthy. cbv iota.
  unfold mbind, mret, Timed_bind, Timed_ret, timed_bind, timed_ret.
  change (Some (Ok (join " " (preamble database_name
                              ++ [example_line "trips" ["id"; "fare"]])),
                now)
          = Some (Ok (join " " (preamble database_name)
                      +:+ " " +:+ "- " +:+ trips_example), now)).
  rewrite join_snoc by done. reflexivity.
Qed.

(** C6. For the context [{"trips": {"columns": ["id", "fare"], ...}}],
    whatever the sample record, the database and the environment, the
    instruction is returned at once and holds the text
    [Table `trips` example query: SELECT "id", "fare" FROM "trips" LIMIT 5;]:
    it is the joined preamble, a space, a dash, a space and that text. *)
Theorem generate_instruction_contains_trips (fuel : nat)
    (athena : AthenaClient) (database_name env : string)
    (sample : option record) (now : nat) :
  exists instruction,
    generate_instruction fuel athena database_name
      (Some (trips_context sample)) env now
    = Some (Ok instruction, now)
    /\ contains instruction trips_example
    /\ instruction
       = join " " (preamble database_name) +:+ " - " +:+ trips_example.
Proof.
  eexists. split; [apply generate_instruction_trips|]. split.
  - exists (join " " (preamble database_name) +:+ " - "), "".
    by rewrite append_nil_r, !append_assoc.
  - reflexivity.
Qed.

Lemma describe_tables_nil (fuel : nat) (athena : AthenaClient)
    (database_name env : string) (parts : list string) (now : nat) :
  describe_tables fuel athena database_name env [] parts now
  = Some (Ok parts, now).
Proof. reflexivity. Qed.

(** C1, as the code has it. An empty context mapping is false in
    [if data_context:], so it is handled like a missing one: the tables are
    listed through [get_all_tables] and described one by one. The joined
    preamble comes back with no line after it when that listing succeeds
    with no table; when the listing raises, so does the composer. *)
Theorem generate_instruction_empty_context (fuel : nat)
    (athena : AthenaClient) (database_name env : string) (now : nat) :
  generate_instruction fuel athena database_name (Some []) env now
  = generate_instruction fuel athena database_name None env now
  /\ (forall later,
        get_all_tables fuel athena database_name (athena_output_of env) now
        = Some (Ok [], later) ->
        generate_instruction fuel athena database_name (Some []) env now
        = Some (Ok (join " " (preamble database_name)), later))
  /\ (forall e later,
        get_all_tables fuel athena database_name (athena_output_of env) now
        = Some (Raised e, later) ->
        generate_instruction fuel athena database_name (Some []) env now
        = Some (Raised e, later)).
Proof.
  split; [reflexivity|]. split.
  - intros later H. unfold generate_instruction. simpl truthy. cbv iota.
    unfold mbind, Timed_bind, timed_bind. by rewrite H.
  - intros e later H. unfold generate_instruction. simpl truthy. cbv iota.
    unfold mbind, Timed_bind, timed_bind. by rewrite H.
Qed.

(** An empty mapping against a catalog that lists one table: the
    instruction ends with the line of that table. *)
Lemma generate_instruction_empty_context_counterexample :
  fst <$> generate_instruction 5 sample_athena "sales" (Some []) "poc" 0
  = Some (Ok (join " " (preamble "sales") +:+ " " +:+ "- " +:+ trips_example))
  /\ fst <$> generate_instruction 5 sample_athena "sales" (Some []) "poc" 0
     <> Some (Ok (join " " (preamble "sales"))).
Proof.
  split; [vm_compute; reflexivity|].
  intros H.
  apply (f_equal (fun r => match r with
                           | Some (Ok s) => String.length s
                           | _ => 0
                           end)) in H.
  vm_compute in H. discriminate H.
Qed.

(** A catalog whose one query returns the header row alone. *)
Lemma generate_instruction_empty_context_witness :
  let athena :=
    mkAthenaClient (fun query _ _ => query) (fun _ _ => "SUCCEEDED")
      (fun _ => [[Some "tab_name"]]) in
  generate_instruction 1 athena "sales" (Some []) "poc" 0
  = Some (Ok (join " " (preamble "sales")), 0).
Proof.
  intros athena.
  apply (proj1 (proj2 (generate_instruction_empty_context 1 athena
                         "sales" "poc" 0))).
  vm_compute; reflexivity.
Defined.

(** ** The local-file sampler *)

Lemma commonprefix_len_app (root rel : path) :
  commonprefix_len root (root ++ rel) = length root.
Proof.
  induction root as [|x root IH]; simpl.
  - by destruct rel.
  - by rewrite String.eqb_refl, IH.
Qed.

Lemma relpath_under (root rel : path) :
  rel <> [] -> relpath (root ++ rel) root = join "/" rel.
Proof.
  intros Hne. unfold relpath. rewrite commonprefix_len_app, Nat.sub_diag.
  simpl. rewrite drop_app_length. by destruct rel.
Qed.

Lemma split_no_sep (c : string) : no_sep c = true -> split "/" c = [c].
Proof.
  induction c as [|x c IH]; simpl; [done|].
  intros [Hx Hc]%andb_true_iff. apply negb_true_iff in Hx.
  by rewrite Hx, (IH Hc).
Qed.

Lemma split_sep_after (c s : string) :
  no_sep c = true -> split "/" (c +:+ String "/" s) = c :: split "/" s.
Proof.
  induction c as [|x c IH]; intros H.
  - reflexivity.
  - simpl in H. apply andb_true_iff in H as [Hx Hc].
    apply negb_true_iff in Hx.
    change (split "/" (String x (c +:+ String "/" s)) = String x c :: split "/" s).
    simpl. by rewrite Hx, (IH Hc).
Qed.

(** The first component of a joined path is its first name. *)
Lemma split_join_first (c : string) (rest : path) :
  no_sep c = true ->
  getitem0 (split "/" (join "/" (c :: rest))) = Ok c.
Proof.
  intros H. destruct rest as [|d rest].
  - simpl. by rewrite (split_no_sep _ H).
  - change (join "/" (c :: d :: rest))
      with (c +:+ String "/" (join "/" (d :: rest))).
    by rewrite (split_sep_after _ _ H).
Qed.

Lemma dict_get_set_eq {V} (k : string) (v : V) (d : list (string * V)) :
  dict_get k (dict_set k v d) = Some v.
Proof.
  induction d as [|[k' v'] d IH]; simpl.
  - by rewrite String.eqb_refl.
  - destruct (String.eqb k' k) eqn:E; simpl; by rewrite E.
Qed.

Lemma dict_get_set_ne {V} (k k' : string) (v : V) (d : list (string * V)) :
  k <> k' -> dict_get k (dict_set k' v d) = dict_get k d.
Proof.
  intros Hne. induction d as [|[k2 v2] d IH]; simpl.
  - destruct (String.eqb k' k) eqn:E; [|done].
    apply String.eqb_eq in E. congruence.
  - destruct (String.eqb k2 k') eqn:E; simpl.
    + apply String.eqb_eq in E. subst k2.
      destruct (String.eqb k' k) eqn:E'; [|done].
      apply String.eqb_eq in E'. congruence.
    + by rewrite IH.
Qed.

Lemma write_all_last (ctx : data_context)
    (ws1 ws2 : list (string * FolderContext)) (k : string)
    (v : FolderContext) :
  Forall (fun kv => kv.1 <> k) ws2 ->
  dict_get k (write_all ctx (ws1 ++ (k, v) :: ws2)) = Some v.
Proof.
  intros Hlater. unfold write_all. rewrite foldl_app. simpl.
  generalize (foldl (fun d kv => dict_set kv.1 kv.2 d) ctx ws1) as d.
  intros d.
  assert (Hd : dict_get k (dict_set k v d) = Some v)
    by apply dict_get_set_eq.
  revert Hd. generalize (dict_set k v d) as d'. clear d.
  induction Hlater as [|[k' v'] ws2 Hk _ IH]; intros d' Hd; simpl; [done|].
  apply IH. rewrite dict_get_set_ne; [done|]. simpl in Hk. congruence.
Qed.

Lemma dict_set_fresh {V} (k : string) (v : V) (d : list (string * V)) :
  k ∉ map fst d -> dict_set k v d = d ++ [(k, v)].
Proof.
  induction d as [|[k' v'] d IH]; simpl; intros Hk; [done|].
  apply not_elem_of_cons in Hk as [Hne Hk].
  destruct (String.eqb k' k) eqn:E.
  - apply String.eqb_eq in E. congruence.
  - by rewrite IH.
Qed.

Lemma dict_set_keys_present {V} (k : string) (v : V)
    (d : list (string * V)) :
  k ∈ map fst d -> map fst (dict_set k v d) = map fst d.
Proof.
  induction d as [|[k' v'] d IH]; simpl; intros Hk.
  - by apply elem_of_nil in Hk.
  - destruct (String.eqb k' k) eqn:E; simpl; [done|].
    apply elem_of_cons in Hk as [->|Hk].
    + by rewrite String.eqb_refl in E.
    + by rewrite IH.
Qed.

Lemma dict_set_keys {V} (k k' : string) (v : V) (d : list (string * V)) :
  k' ∈ map fst (dict_set k v d) <-> k' = k \/ k' ∈ map fst d.
Proof.
  destruct (decide (k ∈ map fst d)) as [Hin|Hout].
  - rewrite (dict_set_keys_present _ _ _ Hin). split; [by right|].
    by intros [->|?].
  - rewrite (dict_set_fresh _ _ _ Hout), map_app, elem_of_app. simpl.
    rewrite list_elem_of_singleton. tauto.
Qed.

Lemma dict_set_NoDup {V} (k : string) (v : V) (d : list (string * V)) :
  NoDup (map fst d) -> NoDup (map fst (dict_set k v d)).
Proof.
  intros Hd. destruct (decide (k ∈ map fst d)) as [Hin|Hout].
  - by rewrite (dict_set_keys_present _ _ _ Hin).
  - rewrite (dict_set_fresh _ _ _ Hout), map_app. simpl.
    apply NoDup_app. split; [done|]. split; [|apply NoDup_singleton].
    intros x Hx ->%list_elem_of_singleton. done.
Qed.

Lemma write_all_keys (ctx : data_context)
    (ws : list (string * FolderContext)) (k : string) :
  k ∈ map fst (write_all ctx ws) <-> k ∈ map fst ctx \/ k ∈ map fst ws.
Proof.
  unfold write_all. revert ctx.
  induction ws as [|[k' v'] ws IH]; intros ctx; simpl.
  - rewrite elem_of_nil. tauto.
  - rewrite IH, dict_set_keys, elem_of_cons. tauto.
Qed.

Lemma write_all_NoDup (ctx : data_context)
    (ws : list (string * FolderContext)) :
  NoDup (map fst ctx) -> NoDup (map fst (write_all ctx ws)).
Proof.
  unfold write_all. revert ctx.
  induction ws as [|[k' v'] ws IH]; intros ctx Hctx; simpl; [done|].
  apply IH. by apply dict_set_NoDup.
Qed.

Lemma write_all_fresh (ctx : data_context)
    (ws : list (string * FolderContext)) :
  NoDup (map fst ctx ++ map fst ws) -> write_all ctx ws = ctx ++ ws.
Proof.
  unfold write_all. revert ctx.
  induction ws as [|[k v] ws IH]; intros ctx Hnd; simpl.
  - by rewrite app_nil_r.
  - simpl in Hnd. apply NoDup_app in Hnd as (Hctx & Hdisj & Hws).
    apply NoDup_cons in Hws as [Hk Hws].
    assert (Hfresh : k ∉ map fst ctx).
    { intros Hin. apply (Hdisj k Hin). by left. }
    rewrite (dict_set_fresh _ _ _ Hfresh), IH, <- app_assoc; [done|].
    rewrite map_app. simpl. rewrite <- app_assoc. simpl.
    apply NoDup_app. split; [done|]. split.
    + intros x Hx [->|Hx']%elem_of_cons; [done|].
      apply (Hdisj x Hx). by right.
    + by apply NoDup_cons.
Qed.

Section AnalyzeCsvFacts.

Variable read_csv : path -> Result DataFrame.
Variable root_folder : path.

Lemma analyze_file_entry (dirpath : path) (file : string)
    (ctx : data_context) :
  analyze_file read_csv root_folder dirpath file ctx
  = if endswith file ".csv" then
      kv ← csv_entry read_csv root_folder (dirpath, file);
      Ok (dict_set kv.1 kv.2 ctx)
    else Ok ctx.
Proof.
  unfold analyze_file, csv_entry. destruct (endswith file ".csv"); [|done].
  unfold mbind, Result_bind; simpl.
  destruct (read_csv (dirpath ++ [file])) as [df|e]; simpl; [|done].
  destruct (getitem0 _) as [smp|e]; simpl; [|done].
  by destruct (getitem0 _) as [first|e].
Qed.

Lemma analyze_files_writes (dirpath : path) (files : list string)
    (ctx : data_context) :
  for_each (analyze_file read_csv root_folder dirpath) files ctx
  = ws ← comprehension (csv_entry read_csv root_folder)
          (map (pair dirpath)
               (List.filter (fun file => endswith file ".csv") files));
    Ok (write_all ctx ws).
Proof.
  revert ctx. induction files as [|f files IH]; intros ctx; [done|].
  simpl for_each. rewrite analyze_file_entry. simpl List.filter.
  destruct (endswith f ".csv"); unfold mbind, Result_bind in *; simpl.
  - destruct (csv_entry read_csv root_folder (dirpath, f)) as [kv|e];
      simpl; [|done].
    rewrite IH. by destruct (comprehension _ _).
  - apply IH.
Qed.

Lemma comprehension_app {A B} (f : A -> Result B) (a b : list A) :
  comprehension f (a ++ b)
  = xs ← comprehension f a; ys ← comprehension f b; Ok (xs ++ ys).
Proof.
  unfold mbind, Result_bind. induction a as [|x a IH]; simpl.
  - by destruct (comprehension f b).
  - unfold mbind, Result_bind. destruct (f x) as [y|e]; simpl; [|done].
    rewrite IH. destruct (comprehension f a) as [xs|e]; simpl; [|done].
    by destruct (comprehension f b).
Qed.

Lemma analyze_items_writes (items : list walk_item) (ctx : data_context) :
  for_each (analyze_dir read_csv root_folder) items ctx
  = ws ← comprehension (csv_entry read_csv root_folder)
          (flat_map (fun item : walk_item =>
                       let '(dirpath, _, files) := item in
                       map (pair dirpath)
                           (List.filter
                              (fun file => endswith file ".csv") files))
                    items);
    Ok (write_all ctx ws).
Proof.
  revert ctx. induction items as [|[[dirpath dirs] files] items IH];
    intros ctx; [done|].
  simpl for_each. simpl flat_map. rewrite comprehension_app.
  unfold analyze_dir at 1. rewrite analyze_files_writes.
  unfold mbind, Result_bind in *; simpl.
  destruct (comprehension _ (map _ _)) as [xs|e]; simpl; [|done].
  rewrite IH. destruct (comprehension _ (flat_map _ _)) as [ys|e]; simpl;
    [|done].
  unfold write_all. by rewrite foldl_app.
Qed.

(** The sampler makes, in the order of the walk, the assignment of each
    file it loads, and raises what the first failing file raises. *)
Lemma analyze_csv_files_writes (entries : list fs_entry) :
  analyze_csv_files read_csv root_folder entries
  = ws ← comprehension (csv_entry read_csv root_folder)
          (csv_files root_folder entries);
    Ok (write_all [] ws).
Proof. unfold analyze_csv_files, csv_files. apply analyze_items_writes. Qed.

Lemma csv_entry_under (rel : path) (first file : string) (df : DataFrame)
    (row : list json) (rows : list (list json)) :
  no_sep first = true ->
  rel ++ [file] = first :: drop 1 (rel ++ [file]) ->
  read_csv (root_folder ++ rel ++ [file]) = Ok df ->
  df_rows df = row :: rows ->
  csv_entry read_csv root_folder (root_folder ++ rel, file)
  = Ok (replace " " "_" first,
        mkFolderContext (df_columns df) (Some (zip (df_columns df) row))).
Proof.
  intros Hsep Hfirst Hread Hrows. unfold csv_entry; simpl.
  rewrite <- app_assoc, Hread. unfold mbind, Result_bind; simpl.
  unfold to_dict_records, df_head; simpl. rewrite Hrows; simpl.
  rewrite relpath_under by (by destruct rel).
  rewrite Hfirst, (split_join_first _ _ Hsep). done.
Qed.

Lemma csv_entry_ok_inv (f : path * string) (w : string * FolderContext) :
  csv_entry read_csv root_folder f = Ok w ->
  exists df row rows first,
    read_csv (f.1 ++ [f.2]) = Ok df
    /\ df_rows df = row :: rows
    /\ w = (replace " " "_" first,
            mkFolderContext (df_columns df)
                            (Some (zip (df_columns df) row))).
Proof.
  unfold csv_entry, mbind, Result_bind; simpl.
  destruct (read_csv (f.1 ++ [f.2])) as [df|e] eqn:Eread; simpl; [|done].
  unfold to_dict_records, df_head; simpl.
  destruct (df_rows df) as [|row rows] eqn:Erows; simpl; [done|].
  destruct (getitem0 _) as [first|e]; simpl; [|done].
  intros [= <-]. by exists df, row, rows, first.
Qed.

End AnalyzeCsvFacts.

Lemma walk_entry_under :
  forall (e : fs_entry) (parent : path) (item : walk_item),
    item ∈ walk_entry parent e -> exists rel, item.1.1 = parent ++ rel.
Proof.
  fix IH 1. intros [n|n entries] parent item; simpl.
  - intros H. by apply elem_of_nil in H.
  - intros [->|H]%elem_of_cons; [by exists [n]|].
    induction entries as [|e' es IHes]; simpl in H.
    + by apply elem_of_nil in H.
    + apply elem_of_app in H as [H|H]; [|by apply IHes].
      apply IH in H as [rel ->]. exists (n :: rel).
      by rewrite <- app_assoc.
Qed.

Lemma os_walk_under (root_folder : path) (entries : list fs_entry)
    (item : walk_item) :
  item ∈ os_walk root_folder entries ->
  exists rel, item.1.1 = root_folder ++ rel.
Proof.
  unfold os_walk. intros [->|H]%elem_of_cons.
  - exists []. by rewrite app_nil_r.
  - apply list_elem_of_In, in_flat_map in H as (e & _ & H).
    apply list_elem_of_In in H. by apply walk_entry_under in H.
Qed.

Lemma csv_files_under (root_folder : path) (entries : list fs_entry)
    (dirpath : path) (file : string) :
  (dirpath, file) ∈ csv_files root_folder entries ->
  endswith file ".csv" = true /\ exists rel, dirpath = root_folder ++ rel.
Proof.
  unfold csv_files. intros H.
  apply list_elem_of_In, in_flat_map in H as ([[d dirs] files] & Hitem & H).
  apply in_map_iff in H as (f & [= <- <-] & Hf).
  apply filter_In in Hf as [_ Hcsv]. split; [done|].
  apply list_elem_of_In, os_walk_under in Hitem. exact Hitem.
Qed.



Example analyze_csv_files_sample :
  analyze_csv_files sample_read_csv sample_root sample_entries
  = Ok [ ("zones.csv",
          mkFolderContext ["zone"] (Some [("zone", JString "A")]));
         ("yellow_taxi",
          mkFolderContext ["id"; "tip"; "total"]
            (Some [("id", JInt 3); ("tip", JInt 1); ("total", JInt 12)])) ].
Proof. vm_compute; reflexivity. Qed.

Lemma dict_get_is_Some {V} (k : string) (d : list (string * V)) :
  k ∈ map fst d -> is_Some (dict_get k d).
Proof.
  induction d as [|[k' v'] d IH]; simpl; intros Hk.
  - by apply elem_of_nil in Hk.
  - destruct (String.eqb k' k) eqn:E; [by eexists|].
    apply elem_of_cons in Hk as [->|Hk]; [|by apply IH].
    by rewrite String.eqb_refl in E.
Qed.

Section KeyFacts.

Variable read_csv : path -> Result DataFrame.
Variable root_folder : path.

(** The key that a loaded file assigns is the first name of its path from
    the root, spaces turned into underscores. *)
Lemma csv_entry_key (rel : path) (file first : string)
    (w : string * FolderContext) :
  csv_entry read_csv root_folder (root_folder ++ rel, file) = Ok w ->
  head (rel ++ [file]) = Some first -> no_sep first = true ->
  w.1 = replace " " "_" first.
Proof.
  intros Hw Hfirst Hsep.
  destruct (csv_entry_ok_inv _ _ _ _ Hw)
    as (df & row & rows & first' & Hread & Hrows & _).
  simpl in Hread. rewrite <- app_assoc in Hread.
  rewrite (csv_entry_under read_csv root_folder rel first file df row rows
             Hsep) in Hw; try done.
  - by injection Hw as <-.
  - destruct (rel ++ [file]) as [|x l]; [done|]. by injection Hfirst as ->.
Qed.

Lemma loaded_file_key (files : list (path * string))
    (ws : list (string * FolderContext)) (rel : path)
    (file first : string) :
  Forall2 (fun f w => csv_entry read_csv root_folder f = Ok w) files ws ->
  (root_folder ++ rel, file) ∈ files ->
  head (rel ++ [file]) = Some first -> no_sep first = true ->
  replace " " "_" first ∈ map fst ws.
Proof.
  intros Hall Hin Hfirst Hsep.
  apply list_elem_of_lookup in Hin as [i Hi].
  destruct (Forall2_lookup_l _ _ _ _ _ Hall Hi) as (w & Hw & Hentry).
  rewrite <- (csv_entry_key _ _ _ _ Hentry Hfirst Hsep).
  apply list_elem_of_In, in_map, list_elem_of_In.
  by apply list_elem_of_lookup_2 in Hw.
Qed.

End KeyFacts.

(** C9. In the mapping that [analyze_csv_files] returns, the key of every
    file loaded is the first name of its path from the root, spaces turned
    into underscores, and every key is such a name. A file that lies in the
    root itself is therefore entered under its own name: the key is there,
    and it holds the columns and the first row of that file when no file
    loaded after it has the same key. *)
Theorem analyze_csv_files_key_first_component
    (read_csv : path -> Result DataFrame) (root_folder : path)
    (entries : list fs_entry) (result : data_context) :
  analyze_csv_files read_csv root_folder entries = Ok result ->
  (forall dirpath file,
     (dirpath, file) ∈ csv_files root_folder entries ->
     exists rel first,
       dirpath = root_folder ++ rel
       /\ head (rel ++ [file]) = Some first
       /\ (no_sep first = true ->
           is_Some (dict_get (replace " " "_" first) result)))
  /\ (forall k,
        k ∈ map fst result ->
        exists dirpath file rel first,
          (dirpath, file) ∈ csv_files root_folder entries
          /\ dirpath = root_folder ++ rel
          /\ head (rel ++ [file]) = Some first
          /\ (no_sep first = true -> k = replace " " "_" first))
  /\ (forall file,
        file ∈ filenames entries ->
        endswith file ".csv" = true -> no_sep file = true ->
        is_Some (dict_get (replace " " "_" file) result))
  /\ (forall file pre post df row rows,
        csv_files root_folder entries = pre ++ (root_folder, file) :: post ->
        no_sep file = true ->
        Forall (fun f =>
                  forall w,
                    csv_entry read_csv root_folder f = Ok w ->
                    w.1 <> replace " " "_" file) post ->
        read_csv (root_folder ++ [file]) = Ok df ->
        df_rows df = row :: rows ->
        dict_get (replace " " "_" file) result
        = Some (mkFolderContext (df_columns df)
                                (Some (zip (df_columns df) row)))).
Proof.
  rewrite analyze_csv_files_writes. unfold mbind, Result_bind.
  destruct (comprehension _ _) as [ws|e] eqn:E; simpl; [|done].
  intros [= <-]. apply comprehension_ok in E.
  assert (Hfirst : forall (rel : path) (file : string),
            exists first, head (rel ++ [file]) = Some first).
  { intros [|x rel] file; simpl; eauto. }
  assert (Hthere : forall rel file first,
    (root_folder ++ rel, file) ∈ csv_files root_folder entries ->
    head (rel ++ [file]) = Some first -> no_sep first = true ->
    is_Some (dict_get (replace " " "_" first) (write_all [] ws))).
  { intros rel file first Hin Hhd Hsep. apply dict_get_is_Some.
    apply write_all_keys. right.
    by apply (loaded_file_key read_csv root_folder _ _ rel file first E). }
  split; [|split; [|split]].
  - intros dirpath file Hin.
    destruct (csv_files_under _ _ _ _ Hin) as (_ & rel & ->).
    destruct (Hfirst rel file) as [first Hhd].
    exists rel, first. split; [done|]. split; [done|].
    intros Hsep. by apply (Hthere rel file first).
  - intros k Hk. apply write_all_keys in Hk as [Hk|Hk];
      [by apply elem_of_nil in Hk|].
    apply list_elem_of_In, in_map_iff in Hk as (w & <- & Hw).
    apply list_elem_of_In, list_elem_of_lookup in Hw as [i Hi].
    destruct (Forall2_lookup_r _ _ _ _ _ E Hi) as ([dirpath file] & Hf & Hentry).
    apply list_elem_of_lookup_2 in Hf.
    destruct (csv_files_under _ _ _ _ Hf) as (_ & rel & ->).
    destruct (Hfirst rel file) as [first Hhd].
    exists (root_folder ++ rel), file, rel, first.
    split; [done|]. split; [done|]. split; [done|].
    intros Hsep. by apply (csv_entry_key read_csv root_folder rel file first).
  - intros file Hin Hcsv Hsep. apply (Hthere [] file file); [|done|done].
    rewrite app_nil_r. unfold csv_files, os_walk. simpl.
    apply elem_of_app. left.
    apply list_elem_of_In, in_map, filter_In. split; [|done].
    by apply list_elem_of_In.
  - intros file pre post df row rows Hfiles Hsep Hpost Hread Hrows.
    rewrite Hfiles in E.
    apply Forall2_app_inv_l in E as (ws1 & ws' & _ & E & ->).
    apply Forall2_cons_inv_l in E as (w & ws2 & Hw & Hws2 & ->).
    pose proof (csv_entry_under read_csv root_folder [] file file df row rows
                  Hsep eq_refl Hread Hrows) as Hentry.
    rewrite app_nil_r in Hentry. rewrite Hentry in Hw. injection Hw as <-.
    apply write_all_last.
    clear -Hpost Hws2. induction Hws2 as [|f w' post ws2 Hf _ IH];
      [constructor|].
    apply Forall_cons in Hpost as [Hne Hpost].
    constructor; [by apply Hne|by apply IH].
Qed.

(** A file [taxi zones.csv] in the root: its entry is under
    [taxi_zones.csv]. *)
Lemma analyze_csv_files_key_first_component_witness :
  exists result,
    analyze_csv_files sample_flat_read_csv sample_root sample_flat_entries
    = Ok result
    /\ dict_get "taxi_zones.csv" result
       = Some (mkFolderContext ["zone"] (Some [("zone", JString "A")])).
Proof.
  eexists. split; [vm_compute; reflexivity|].
  apply (proj2 (proj2 (proj2
           (analyze_csv_files_key_first_component sample_flat_read_csv
              sample_root sample_flat_entries _
              ltac:(vm_compute; reflexivity))))
           "taxi zones.csv" []
           [(["data"; "yellow taxi"], "jan.csv")]
           zones_frame [JString "A"] []).
  - vm_compute; reflexivity.
  - vm_compute; reflexivity.
  - constructor; [|constructor].
    intros w Hw. vm_compute in Hw. injection Hw as <-. discriminate.
  - vm_compute; reflexivity.
  - reflexivity.
Defined.

(** * Further properties *)

(** ** The object-store sampler, beyond the claims *)

Section ProcessFolderMore.

Variable decode_utf8 : bytes -> option string.
Variable json_loads : string -> Result json.

Lemma records_of_folder_no_match (s3 : S3Client)
    (bucket_name folder_name : string) :
  Forall (fun key => endswith key ".json.gz" = false)
         (listed_keys s3 bucket_name folder_name) ->
  records_of_folder decode_utf8 json_loads s3 bucket_name folder_name = [].
Proof.
  unfold records_of_folder.
  induction 1 as [|key ks Hkey _ IH]; simpl; [done|].
  unfold records_of_object at 1. by rewrite Hkey, IH.
Qed.

(** X1. A prefix under which no listed key ends in [.json.gz] gives no
    column and no sample; and whatever is listed, the sample is [None]
    exactly when no mapping record was decoded. *)
Theorem process_folder_nothing_found (s3 : S3Client)
    (bucket_name folder_name : string) (ctx : FolderContext) :
  process_folder decode_utf8 json_loads s3 bucket_name folder_name = Ok ctx ->
  (Forall (fun key => endswith key ".json.gz" = false)
          (listed_keys s3 bucket_name folder_name) ->
   columns ctx = [] /\ sample_data ctx = None)
  /\ (sample_data ctx = None <->
      records_of_folder decode_utf8 json_loads s3 bucket_name folder_name
      = []).
Proof.
  intros H. apply process_folder_absorb in H as [Hcols Hs]. split.
  - intros Hnone. rewrite Hcols, Hs.
    rewrite (records_of_folder_no_match _ _ _ Hnone).
    split; [|done]. unfold all_keys; simpl. apply elements_empty.
  - rewrite Hs.
    by destruct (records_of_folder _ _ _ _ _).
Qed.

(** X2. Every key of the sample record is among the columns. *)
Theorem process_folder_sample_within_columns (s3 : S3Client)
    (bucket_name folder_name : string) (ctx : FolderContext) (d : record) :
  process_folder decode_utf8 json_loads s3 bucket_name folder_name = Ok ctx ->
  sample_data ctx = Some d ->
  forall k, k ∈ keys d -> k ∈ columns ctx.
Proof.
  intros H Hd k Hk. apply process_folder_absorb in H as [Hcols Hs].
  rewrite Hcols, elem_of_elements, elem_of_all_keys.
  exists d. split; [|done].
  rewrite Hs in Hd. apply head_Some_elem_of. done.
Qed.

Lemma process_pages_ext_matching (s3 s3' : S3Client) (bucket_name : string)
    (pages : iter page) (st : scan) :
  (forall key, endswith key ".json.gz" = true ->
     get_object s3 bucket_name key = get_object s3' bucket_name key) ->
  process_pages decode_utf8 json_loads s3 bucket_name pages st
  = process_pages decode_utf8 json_loads s3' bucket_name pages st.
Proof.
  intros Hget. revert st.
  induction pages as [|e|p rest IH]; intros st; simpl; try done.
  rewrite IH. f_equal. unfold process_page.
  generalize (default [] p) as ks. intros ks. revert st.
  induction ks as [|k ks IHk]; intros st; simpl; [done|].
  rewrite IHk. f_equal. unfold process_object.
  destruct (endswith k ".json.gz") eqn:E; [|done]. by rewrite (Hget _ E).
Qed.

(** X3. The scan fetches no object whose key does not end in [.json.gz]:
    two clients with the same listing and the same objects under such keys
    give the same columns, sample and diagnostics, whatever their other
    objects are. *)
Theorem process_folder_fetches_matching_only (s3 s3' : S3Client)
    (bucket_name folder_name : string) :
  paginate s3 bucket_name folder_name = paginate s3' bucket_name folder_name ->
  (forall key, endswith key ".json.gz" = true ->
     get_object s3 bucket_name key = get_object s3' bucket_name key) ->
  process_folder_scan decode_utf8 json_loads s3 bucket_name folder_name
  = process_folder_scan decode_utf8 json_loads s3' bucket_name folder_name
  /\ process_folder decode_utf8 json_loads s3 bucket_name folder_name
     = process_folder decode_utf8 json_loads s3' bucket_name folder_name.
Proof.
  intros Hpages Hget.
  assert (Hscan :
    process_folder_scan decode_utf8 json_loads s3 bucket_name folder_name
    = process_folder_scan decode_utf8 json_loads s3' bucket_name folder_name).
  { unfold process_folder_scan.
    by rewrite Hpages, (process_pages_ext_matching s3 s3' _ _ _ Hget). }
  split; [done|]. unfold process_folder. by rewrite Hscan.
Qed.

Lemma records_of_lines_skip_value (pre post : list bytes) (bad : bytes)
    (text : string) (v : json) :
  decode_utf8 bad = Some text -> json_loads text = Ok v ->
  (forall d, v <> JObject d) ->
  records_of_lines decode_utf8 json_loads (pre ++ bad :: post)
  = records_of_lines decode_utf8 json_loads (pre ++ post).
Proof.
  intros Hd Hj Hv. induction pre as [|l pre IH]; simpl.
  - rewrite Hd, Hj. destruct v; try done. by destruct (Hv kvs).
  - destruct (decode_utf8 l) as [t|]; [|done].
    destruct (json_loads t) as [[| | | | |d]|[]];
      rewrite ?IH; done.
Qed.

(** X4. A line that decodes to a JSON value other than a mapping (a list,
    a number, a string, [null]) is skipped like a malformed one: the
    columns, the sample and the way the reading of the object ends are
    those of the same object without the line. *)
Theorem process_lines_skips_non_mapping (key : string) (pre : list bytes)
    (bad : bytes) (text : string) (v : json) (post : iter bytes)
    (st : scan) :
  decode_utf8 bad = Some text -> json_loads text = Ok v ->
  (forall d, v <> JObject d) ->
  (process_lines decode_utf8 json_loads key
     (yield_from pre (Yield bad post)) st).1.1
  = (process_lines decode_utf8 json_loads key (yield_from pre post) st).1.1
  /\ (process_lines decode_utf8 json_loads key
        (yield_from pre (Yield bad post)) st).2
     = (process_lines decode_utf8 json_loads key (yield_from pre post) st).2.
Proof.
  intros Hd Hj Hv. split.
  - rewrite !process_lines_absorb, !yielded_yield_from. simpl.
    by rewrite (records_of_lines_skip_value _ _ _ _ _ Hd Hj Hv).
  - revert st. induction pre as [|l pre IH]; intros st; simpl.
    + rewrite Hd, Hj. destruct v; apply process_lines_ending.
    + destruct (decode_utf8 l) as [t|]; [|done].
      destruct (json_loads t) as [[| | | | |d]|[]];
      first [apply IH | done].
Qed.

(** X5. When the reading of an object breaks, by a line that is not UTF-8
    or by a failure of the stream, what its earlier lines gave is kept and
    its later lines are never read: the state is that of the object cut
    before the break, and the reading ends with the exception of the first
    line that raised. *)
Theorem process_lines_break_keeps_earlier (key : string) (pre : list bytes)
    (st : scan) :
  (forall bad post,
     decode_utf8 bad = None ->
     process_lines decode_utf8 json_loads key
       (yield_from pre (Yield bad post)) st
     = ((process_lines decode_utf8 json_loads key
           (yield_from pre StopIteration) st).1,
        Some (default UnicodeDecodeError
                (process_lines decode_utf8 json_loads key
                   (yield_from pre StopIteration) st).2)))
  /\ (forall e,
        (process_lines decode_utf8 json_loads key
           (yield_from pre (Raise e)) st).1
        = (process_lines decode_utf8 json_loads key
             (yield_from pre StopIteration) st).1
        /\ is_Some (process_lines decode_utf8 json_loads key
                      (yield_from pre (Raise e)) st).2).
Proof.
  split.
  - intros bad post Hbad. apply process_lines_break. by left.
  - intros e. revert st. induction pre as [|l pre IH]; intros st; simpl.
    + split; [done|by eexists].
    + destruct (decode_utf8 l) as [t|]; [|split; [done|by eexists]].
      destruct (json_loads t) as [[| | | | |d]|[]];
        first [apply IH | split; [done|by eexists]].
Qed.

End ProcessFolderMore.

Lemma process_folder_nothing_found_witness :
  let s3 :=
    mkS3Client
      (fun _ _ => Yield (Some ["trips/data/notes.txt"]) (Yield None StopIteration))
      (fun _ _ => Raised (ClientError "AccessDenied")) in
  columns (mkFolderContext [] None) = []
  /\ sample_data (mkFolderContext [] None) = None.
Proof.
  intros s3.
  apply (proj1 (process_folder_nothing_found sample_decode_utf8
                  sample_json_loads s3 "bucket" "trips/data/"
                  (mkFolderContext [] None) eq_refl)).
  vm_compute. repeat constructor.
Defined.

Lemma process_folder_sample_within_columns_witness :
  "id" ∈ columns
           (mkFolderContext ["id"; "fare"; "tip"] (Some [("id", JInt 1)])).
Proof.
  apply (process_folder_sample_within_columns sample_decode_utf8
           sample_json_loads sample_s3 "bucket" "trips/data/"
           (mkFolderContext ["id"; "fare"; "tip"] (Some [("id", JInt 1)]))
           [("id", JInt 1)]).
  - vm_compute; reflexivity.
  - reflexivity.
  - vm_compute. constructor.
Defined.

Lemma process_folder_fetches_matching_only_witness :
  let s3' :=
    mkS3Client (paginate sample_s3)
      (fun bucket_name key =>
         if String.eqb key "trips/data/notes.txt"
         then Ok (Yield (ascii_line line_tip) StopIteration)
         else get_object sample_s3 bucket_name key) in
  process_folder sample_decode_utf8 sample_json_loads sample_s3
    "bucket" "trips/data/"
  = process_folder sample_decode_utf8 sample_json_loads s3'
      "bucket" "trips/data/".
Proof.
  intros s3'.
  apply (process_folder_fetches_matching_only sample_decode_utf8
           sample_json_loads sample_s3 s3' "bucket" "trips/data/").
  - reflexivity.
  - intros key Hkey. simpl.
    destruct (String.eqb key "trips/data/notes.txt") eqn:E; [|reflexivity].
    apply String.eqb_eq in E. subst key. vm_compute in Hkey. discriminate Hkey.
Defined.

Lemma process_lines_skips_non_mapping_witness :
  (process_lines sample_decode_utf8 sample_json_loads "part.json.gz"
     (yield_from [ascii_line line_id]
        (Yield (ascii_line line_list)
           (Yield (ascii_line line_tip) StopIteration)))
     (FolderState ∅ None, [])).1.1
  = (process_lines sample_decode_utf8 sample_json_loads "part.json.gz"
       (yield_from [ascii_line line_id]
          (Yield (ascii_line line_tip) StopIteration))
       (FolderState ∅ None, [])).1.1.
Proof.
  apply (process_lines_skips_non_mapping sample_decode_utf8 sample_json_loads
           "part.json.gz" [ascii_line line_id] (ascii_line line_list)
           line_list (JArray [JInt 1; JInt 2])
           (Yield (ascii_line line_tip) StopIteration)
           (FolderState ∅ None, [])).
  - vm_compute; reflexivity.
  - vm_compute; reflexivity.
  - intros d Hd. discriminate Hd.
Defined.

Lemma process_lines_break_keeps_earlier_witness :
  process_lines sample_decode_utf8 sample_json_loads "part.json.gz"
    (yield_from [ascii_line line_id]
       (Yield [Byte.xff] (Yield (ascii_line line_tip) StopIteration)))
    (FolderState ∅ None, [])
  = ((process_lines sample_decode_utf8 sample_json_loads "part.json.gz"
        (yield_from [ascii_line line_id] StopIteration)
        (FolderState ∅ None, [])).1,
     Some UnicodeDecodeError).
Proof.
  apply (proj1 (process_lines_break_keeps_earlier sample_decode_utf8
                  sample_json_loads "part.json.gz" [ascii_line line_id]
                  (FolderState ∅ None, []))
           [Byte.xff] (Yield (ascii_line line_tip) StopIteration)).
  vm_compute; reflexivity.
Defined.

(** A line on which [json.loads] raises comes before the line that is not
    UTF-8: the reading ends there, with its exception. *)
Example first_break_ends_object :
  (process_lines sample_decode_utf8 sample_json_loads "part.json.gz"
     (yield_from [ascii_line line_id; ascii_line line_huge]
        (Yield [Byte.xff] StopIteration))
     (FolderState ∅ None, [])).2
  = Some (ValueError
            "Exceeds the limit (4300 digits) for integer string conversion").
Proof. vm_compute; reflexivity. Qed.

Section ProcessFolderOutcome.

Variable decode_utf8 : bytes -> option string.
Variable json_loads : string -> Result json.

Lemma process_folder_outcome (s3 : S3Client)
    (bucket_name folder_name : string) :
  process_folder decode_utf8 json_loads s3 bucket_name folder_name
  = match outcome (paginate s3 bucket_name folder_name) with
    | Some e => Raised e
    | None =>
        let rs := records_of_folder decode_utf8 json_loads s3
                    bucket_name folder_name in
        Ok (mkFolderContext (elements (all_keys rs)) (head rs))
    end.
Proof.
  pose proof (process_pages_returns decode_utf8 json_loads s3 bucket_name
                (paginate s3 bucket_name folder_name)
                (FolderState ∅ None, [])) as Hret.
  destruct (outcome (paginate s3 bucket_name folder_name)) as [e|].
  - unfold process_folder, process_folder_scan. by rewrite Hret.
  - destruct Hret as [st' Hst'].
    assert (exists ctx,
      process_folder decode_utf8 json_loads s3 bucket_name folder_name
      = Ok ctx) as [ctx Hctx].
    { unfold process_folder, process_folder_scan. rewrite Hst'. eauto. }
    rewrite Hctx. apply process_folder_absorb in Hctx as [Hcols Hs].
    destruct ctx as [cols smp]; simpl in *. by rewrite Hcols, Hs.
Qed.

(** X6. [process_folder] raises exactly when the listing of the prefix
    raises, and then the exception of the listing; no failure of an object
    or of a line makes it raise. When the listing ends well it returns the
    union of the keys and the first of the decoded mapping records. *)
Theorem process_folder_raises_with_listing (s3 : S3Client)
    (bucket_name folder_name : string) :
  (forall e,
     process_folder decode_utf8 json_loads s3 bucket_name folder_name
     = Raised e
     <-> outcome (paginate s3 bucket_name folder_name) = Some e)
  /\ (outcome (paginate s3 bucket_name folder_name) = None ->
      let rs := records_of_folder decode_utf8 json_loads s3
                  bucket_name folder_name in
      process_folder decode_utf8 json_loads s3 bucket_name folder_name
      = Ok (mkFolderContext (elements (all_keys rs)) (head rs))).
Proof.
  rewrite process_folder_outcome.
  destruct (outcome (paginate s3 bucket_name folder_name)) as [e'|]; simpl.
  - split; [|done]. intros e. split; congruence.
  - split; [|done]. intros e. split; intros H; discriminate H.
Qed.

(** X7. No line is dropped in silence, short of an exception that the
    inner [try] lets through. When every line of an object is UTF-8, when
    [json.loads] raises nothing but [JSONDecodeError] on them and the
    stream ends well, each line either gives a mapping record or one
    diagnostic that names the object; diagnostics printed before stay in
    place. *)
Theorem process_lines_reports_every_skip (key : string) (lines : list bytes)
    (st : scan) :
  Forall (fun l =>
            exists text,
              decode_utf8 l = Some text
              /\ forall e, json_loads text = Raised e -> e = JSONDecodeError)
         lines ->
  exists ds,
    (process_lines decode_utf8 json_loads key
       (yield_from lines StopIteration) st).1.2 = st.2 ++ ds
    /\ length ds + length (records_of_lines decode_utf8 json_loads lines)
       = length lines
    /\ Forall (fun d => d = UnexpectedJson key \/ d = ErrorDecodingLine key)
              ds.
Proof.
  intros Hall. revert st.
  induction Hall as [|l lines (t & Ht & Hjson) _ IH]; intros st; simpl.
  - exists []. by rewrite app_nil_r.
  - rewrite Ht.
    destruct (json_loads t) as [v|e] eqn:Ej.
    + destruct v;
        try (destruct (IH (print (UnexpectedJson key) st))
               as (ds & Hds & Hlen & Hnames);
             exists (UnexpectedJson key :: ds); simpl in *;
             rewrite Hds, <- app_assoc;
             split; [done|split; [lia|constructor; [by left|done]]]).
      destruct (IH (merge_record kvs st)) as (ds & Hds & Hlen & Hnames).
      exists ds. simpl in *. rewrite Hds. split; [done|]. split; [lia|done].
    + rewrite (Hjson e eq_refl).
      destruct (IH (print (ErrorDecodingLine key) st))
        as (ds & Hds & Hlen & Hnames).
      exists (ErrorDecodingLine key :: ds). simpl in *.
      rewrite Hds, <- app_assoc.
      split; [done|split; [lia|constructor; [by right|done]]].
Qed.

End ProcessFolderOutcome.

Lemma process_lines_reports_every_skip_witness :
  exists ds,
    (process_lines sample_decode_utf8 sample_json_loads "part.json.gz"
       (yield_from (map ascii_line [line_id; line_cut; line_list; line_tip])
          StopIteration)
       (FolderState ∅ None, [])).1.2 = [] ++ ds
    /\ length ds
       + length (records_of_lines sample_decode_utf8 sample_json_loads
                   (map ascii_line [line_id; line_cut; line_list; line_tip]))
       = length (map ascii_line [line_id; line_cut; line_list; line_tip])
    /\ Forall (fun d => d = UnexpectedJson "part.json.gz"
                        \/ d = ErrorDecodingLine "part.json.gz") ds.
Proof.
  apply (process_lines_reports_every_skip sample_decode_utf8 sample_json_loads
           "part.json.gz"
           (map ascii_line [line_id; line_cut; line_list; line_tip])
           (FolderState ∅ None, [])).
  simpl map.
  repeat (apply Forall_cons; split;
          [eexists; split;
           [vm_compute; reflexivity
           |intros e He; vm_compute in He;
            first [discriminate He | by injection He as <-]]|]).
  apply Forall_nil_2.
Defined.

(** ** The sampler of several prefixes *)

Lemma append_cons (x : ascii) (a b : string) :
  String x a +:+ b = String x (a +:+ b).
Proof. reflexivity. Qed.

Lemma append_snoc_nonempty (t : string) (c : ascii) :
  t +:+ String c "" <> "".
Proof. by destruct t. Qed.

Lemma rstrip_cons (c x : ascii) (s : string) :
  rstrip c (String x s)
  = match rstrip c s with
    | EmptyString => if Ascii.eqb x c then EmptyString else String x EmptyString
    | r => String x r
    end.
Proof. reflexivity. Qed.

Lemma rstrip_decompose (c : ascii) (s : string) :
  exists n, s = rstrip c s +:+ pad c n.
Proof.
  induction s as [|x s [n IH]].
  - by exists 0.
  - rewrite rstrip_cons. destruct (rstrip c s) as [|y r] eqn:E.
    + destruct (Ascii.eqb x c) eqn:Ex.
      * apply Ascii.eqb_eq in Ex. subst x. exists (S n). simpl.
        by rewrite IH at 1.
      * exists n. rewrite append_cons. by rewrite IH at 1.
    + exists n. rewrite append_cons. by rewrite IH at 1.
Qed.

Lemma rstrip_no_trailing (c : ascii) (s t : string) :
  rstrip c s <> t +:+ String c "".
Proof.
  revert t. induction s as [|x s IH]; intros t.
  - simpl. intros H. by apply (append_snoc_nonempty t c).
  - rewrite rstrip_cons. destruct (rstrip c s) as [|y r] eqn:E.
    + destruct (Ascii.eqb x c) eqn:Ex.
      * intros H. by apply (append_snoc_nonempty t c).
      * destruct t as [|z t].
        -- intros [= ->]. by rewrite Ascii.eqb_refl in Ex.
        -- rewrite append_cons. intros [= _ H].
           by apply (append_snoc_nonempty t c).
    + destruct t as [|z t].
      * simpl. intros H. inversion H.
      * rewrite append_cons. intros [= _ H]. by apply (IH t).
Qed.

Lemma rstrip_snoc (c : ascii) (s : string) :
  rstrip c (s +:+ String c "") = rstrip c s.
Proof.
  induction s as [|x s IH].
  - simpl. by rewrite Ascii.eqb_refl.
  - by rewrite append_cons, !rstrip_cons, IH.
Qed.

Lemma rstrip_unchanged (c : ascii) (s : string) :
  (forall t, s <> t +:+ String c "") -> rstrip c s = s.
Proof.
  induction s as [|x s IH]; intros Hs; [done|].
  rewrite rstrip_cons.
  assert (Hs' : s = "" \/ forall t, s <> t +:+ String c "").
  { destruct s as [|y s]; [by left|right].
    intros t Ht. apply (Hs (String x t)). by rewrite append_cons, <- Ht. }
  destruct Hs' as [-> | Hs'].
  - simpl. destruct (Ascii.eqb x c) eqn:Ex; [|done].
    apply Ascii.eqb_eq in Ex. subst x. by destruct (Hs "").
  - rewrite (IH Hs'). destruct s; [|done].
    destruct (Ascii.eqb x c) eqn:Ex; [|done].
    apply Ascii.eqb_eq in Ex. subst x. by destruct (Hs "").
Qed.

(** X8. The prefix scanned for a folder is its name without its trailing
    slashes, followed by [/data/]: only slashes at the end are removed, all
    of them are, so a name and the same name with one more slash are
    scanned under the same prefix, and a name that does not end in a slash
    is kept whole. *)
Theorem root_folder_strips_trailing_slashes (folder : string) :
  (exists stem n,
     folder = stem +:+ pad "/" n
     /\ (forall t, stem <> t +:+ "/")
     /\ root_folder_of folder = stem +:+ "/data/")
  /\ root_folder_of (folder +:+ "/") = root_folder_of folder
  /\ ((forall t, folder <> t +:+ "/") ->
      root_folder_of folder = folder +:+ "/data/").
Proof.
  unfold root_folder_of. split; [|split].
  - destruct (rstrip_decompose "/" folder) as [n Hn].
    exists (rstrip "/" folder), n. split; [done|]. split; [|done].
    intros t. apply rstrip_no_trailing.
  - by rewrite rstrip_snoc.
  - intros H. by rewrite rstrip_unchanged.
Qed.

Lemma root_folder_strips_trailing_slashes_witness :
  root_folder_of "trips" = "trips" +:+ "/data/".
Proof.
  apply (proj2 (proj2 (root_folder_strips_trailing_slashes "trips"))).
  intros t H. apply (rstrip_no_trailing "/" "trips" t). exact H.
Defined.

Section AnalyzeJsonGzFacts.

Variable decode_utf8 : bytes -> option string.
Variable json_loads : string -> Result json.
Variable boto3_client_s3 : string -> S3Client.

Lemma analyze_folders_from (s3 : S3Client) (bucket_name : string)
    (folders : list string) :
  forall (rest : list string) (start : nat) (ctx : data_context),
    drop start folders = rest ->
    for_each (analyze_folder decode_utf8 json_loads s3 bucket_name folders)
             (enumerate_from start (map root_folder_of rest)) ctx
    = ws ← comprehension
            (folder_entry decode_utf8 json_loads s3 bucket_name) rest;
      Ok (write_all ctx ws).
Proof.
  induction rest as [|f rest IH]; intros start ctx Hdrop; [done|].
  assert (Hget : getitem folders start = Ok f).
  { unfold getitem.
    by rewrite <- (Nat.add_0_r start), <- lookup_drop, Hdrop. }
  assert (Hnext : drop (S start) folders = rest).
  { by rewrite <- Nat.add_1_r, <- drop_drop, Hdrop. }
  simpl. unfold folder_entry, mbind, Result_bind in *; simpl.
  destruct (process_folder _ _ _ _ _) as [c|e]; simpl; [|done].
  rewrite Hget; simpl. rewrite (IH _ _ Hnext).
  by destruct (comprehension _ rest).
Qed.

Lemma analyze_json_gz_files_writes (bucket_name : string)
    (folders : list string) (region : string) :
  analyze_json_gz_files decode_utf8 json_loads boto3_client_s3
    bucket_name folders region
  = ws ← comprehension
          (folder_entry decode_utf8 json_loads (boto3_client_s3 region)
             bucket_name) folders;
    Ok (write_all [] ws).
Proof.
  unfold analyze_json_gz_files, enumerate. by apply analyze_folders_from.
Qed.

Lemma folder_entries_keys (s3 : S3Client) (bucket_name : string)
    (folders : list string) (ws : list (string * FolderContext)) :
  Forall2 (fun f w =>
             folder_entry decode_utf8 json_loads s3 bucket_name f = Ok w)
          folders ws ->
  map fst ws = folders
  /\ Forall (fun w =>
               process_folder decode_utf8 json_loads s3 bucket_name
                 (root_folder_of w.1) = Ok w.2) ws.
Proof.
  induction 1 as [|f w folders ws Hw _ [IHk IHv]]; [done|].
  unfold folder_entry, mbind, Result_bind in Hw; simpl in Hw.
  destruct (process_folder _ _ _ _ _) as [c|e] eqn:E; simpl in Hw; [|done].
  injection Hw as <-. simpl. split; [by rewrite IHk|].
  constructor; [done|done].
Qed.

End AnalyzeJsonGzFacts.

Lemma assoc_split_last {V} (ws : list (string * V)) (k : string) :
  k ∈ map fst ws ->
  exists ws1 v ws2,
    ws = ws1 ++ (k, v) :: ws2 /\ Forall (fun kv => kv.1 <> k) ws2.
Proof.
  induction ws as [|[k' v'] ws IH]; simpl; intros Hk.
  - by apply elem_of_nil in Hk.
  - destruct (decide (k ∈ map fst ws)) as [Hin|Hout].
    + destruct (IH Hin) as (ws1 & v & ws2 & -> & Hlater).
      by exists ((k', v') :: ws1), v, ws2.
    + apply elem_of_cons in Hk as [->|Hk]; [|done].
      exists [], v', ws. split; [done|].
      apply Forall_forall. intros [k2 v2] Hin <-. apply Hout.
      apply list_elem_of_In, in_map_iff. exists (k2, v2).
      split; [done|]. by apply list_elem_of_In.
Qed.

Lemma comprehension_first_failure {A B} (f : A -> Result B)
    (pre post : list A) (x : A) (e : exn) :
  Forall (fun a => exists b, f a = Ok b) pre -> f x = Raised e ->
  comprehension f (pre ++ x :: post) = Raised e.
Proof.
  intros Hpre Hx. induction Hpre as [|a pre [b Hb] _ IH]; simpl;
    unfold mbind, Result_bind; simpl.
  - by rewrite Hx.
  - by rewrite Hb, IH.
Qed.

Lemma comprehension_raised_inv {A B} (f : A -> Result B) (l : list A)
    (e : exn) :
  comprehension f l = Raised e -> exists x, x ∈ l /\ f x = Raised e.
Proof.
  induction l as [|x l IH]; simpl; [done|].
  unfold mbind, Result_bind. destruct (f x) as [y|e'] eqn:E; simpl.
  - destruct (comprehension f l) as [ys|e'']; simpl; [done|].
    intros [= ->]. destruct (IH eq_refl) as (x' & Hin & Hx').
    exists x'. split; [by right|done].
  - intros [= ->]. exists x. split; [by left|done].
Qed.

Lemma comprehension_total {A B} (f : A -> Result B) (l : list A) :
  Forall (fun x => exists y, f x = Ok y) l ->
  exists ys, comprehension f l = Ok ys.
Proof.
  induction 1 as [|x l [y Hy] _ [ys IH]]; simpl; [by eexists|].
  unfold mbind, Result_bind. rewrite Hy; simpl. rewrite IH; simpl.
  by eexists.
Qed.

Lemma enumerate_from_map {A B} (f : A -> B) (l : list A) :
  forall (start i : nat) (y : B),
    (i, y) ∈ enumerate_from start (map f l) ->
    start <= i /\ exists x, l !! (i - start) = Some x /\ y = f x.
Proof.
  induction l as [|x l IH]; intros start i y; simpl.
  - intros H. by apply elem_of_nil in H.
  - intros [[= -> ->]|H]%elem_of_cons.
    + split; [lia|]. exists x. by rewrite Nat.sub_diag.
    + apply IH in H as (Hle & x' & Hx' & ->). split; [lia|].
      exists x'. split; [|done].
      by replace (i - start) with (S (i - S start)) by lia.
Qed.

Section AnalyzeJsonGzTheorems.

Variable decode_utf8 : bytes -> option string.
Variable json_loads : string -> Result json.
Variable boto3_client_s3 : string -> S3Client.

(** X9. [analyze_json_gz_files] enters each folder under its name as it was
    given, trailing slash included, with what [process_folder] returns for
    its prefix. The mapping has one entry for each distinct name and no
    other; when the names are distinct the entries follow their order. The
    lookup [top_level_root_folders[i]] never fails: at every turn of the
    loop it gives the folder whose prefix is scanned, so the function
    returns when every listing ends well, and what it raises is what a
    listing raised. *)
Theorem analyze_json_gz_files_keys_as_given (bucket_name : string)
    (folders : list string) (region : string) :
  (forall i root_folder,
     (i, root_folder) ∈ enumerate (map root_folder_of folders) ->
     exists folder,
       getitem folders i = Ok folder
       /\ root_folder = root_folder_of folder)
  /\ (Forall (fun f =>
                outcome (paginate (boto3_client_s3 region) bucket_name
                           (root_folder_of f)) = None) folders ->
      exists result,
        analyze_json_gz_files decode_utf8 json_loads boto3_client_s3
          bucket_name folders region = Ok result)
  /\ (forall e,
        analyze_json_gz_files decode_utf8 json_loads boto3_client_s3
          bucket_name folders region = Raised e ->
        exists folder,
          folder ∈ folders
          /\ outcome (paginate (boto3_client_s3 region) bucket_name
                        (root_folder_of folder)) = Some e)
  /\ (forall result,
        analyze_json_gz_files decode_utf8 json_loads boto3_client_s3
          bucket_name folders region = Ok result ->
        (forall folder,
           folder ∈ folders ->
           exists ctx,
             process_folder decode_utf8 json_loads (boto3_client_s3 region)
               bucket_name (root_folder_of folder) = Ok ctx
             /\ dict_get folder result = Some ctx)
        /\ (forall k, k ∈ map fst result -> k ∈ folders)
        /\ NoDup (map fst result)
        /\ (NoDup folders -> map fst result = folders)).
Proof.
  split; [|split; [|split]].
  - intros i root_folder Hin. unfold enumerate in Hin.
    apply enumerate_from_map in Hin as (_ & folder & Hfolder & ->).
    exists folder. split; [|done].
    unfold getitem. rewrite Nat.sub_0_r in Hfolder. by rewrite Hfolder.
  - intros Hok. rewrite analyze_json_gz_files_writes.
    destruct (comprehension_total
                (folder_entry decode_utf8 json_loads
                   (boto3_client_s3 region) bucket_name) folders)
      as [ws Hws].
    + eapply Forall_impl; [exact Hok|]. intros f Hf. simpl in Hf.
      unfold folder_entry, mbind, Result_bind.
      rewrite process_folder_outcome, Hf. simpl. eauto.
    + unfold mbind, Result_bind. rewrite Hws. simpl. eauto.
  - intros e. rewrite analyze_json_gz_files_writes.
    unfold mbind, Result_bind.
    destruct (comprehension _ folders) as [ws|e'] eqn:E; simpl; [done|].
    intros [= ->].
    apply comprehension_raised_inv in E as (folder & Hin & Hfolder).
    exists folder. split; [done|].
    unfold folder_entry, mbind, Result_bind in Hfolder.
    rewrite process_folder_outcome in Hfolder.
    destruct (outcome _) as [e'|]; simpl in Hfolder; [|done].
    by injection Hfolder as ->.
  - intros result. rewrite analyze_json_gz_files_writes.
    unfold mbind, Result_bind.
    destruct (comprehension _ folders) as [ws|e] eqn:E; simpl; [|done].
    intros [= <-]. apply comprehension_ok in E.
    apply folder_entries_keys in E as [Hkeys Hvals].
    split; [|split; [|split]].
    + intros folder Hin. rewrite <- Hkeys in Hin.
      destruct (assoc_split_last _ _ Hin) as (ws1 & v & ws2 & -> & Hlater).
      exists v. split; [|by apply write_all_last].
      rewrite Forall_app, Forall_cons in Hvals.
      by destruct Hvals as (_ & Hv & _).
    + intros k Hk. apply write_all_keys in Hk as [Hk|Hk].
      * by apply elem_of_nil in Hk.
      * by rewrite <- Hkeys.
    + apply write_all_NoDup. constructor.
    + intros Hnd. rewrite write_all_fresh; [done|]. simpl. by rewrite Hkeys.
Qed.

(** X10. When the listing of the prefix of one folder raises, and the
    listings of the folders before it do not, [analyze_json_gz_files]
    raises that exception: the contexts already built are lost and the
    folders after it are not scanned. *)
Theorem analyze_json_gz_files_listing_failure (bucket_name : string)
    (pre post : list string) (folder region : string) (e : exn) :
  Forall (fun f =>
            outcome (paginate (boto3_client_s3 region) bucket_name
                       (root_folder_of f)) = None) pre ->
  outcome (paginate (boto3_client_s3 region) bucket_name
             (root_folder_of folder)) = Some e ->
  analyze_json_gz_files decode_utf8 json_loads boto3_client_s3
    bucket_name (pre ++ folder :: post) region = Raised e.
Proof.
  intros Hpre Hfail. rewrite analyze_json_gz_files_writes.
  rewrite (comprehension_first_failure _ pre post folder e); [done| |].
  - eapply Forall_impl; [exact Hpre|]. intros f Hf. simpl in Hf.
    unfold folder_entry, mbind, Result_bind.
    rewrite process_folder_outcome, Hf. simpl. eauto.
  - unfold folder_entry, mbind, Result_bind.
    by rewrite process_folder_outcome, Hfail.
Qed.

End AnalyzeJsonGzTheorems.

Lemma analyze_json_gz_files_keys_as_given_witness :
  exists ctx,
    process_folder sample_decode_utf8 sample_json_loads sample_s3
      "bucket" (root_folder_of "trips/") = Ok ctx
    /\ dict_get "trips/"
         [ ("trips",
            mkFolderContext ["id"; "fare"; "tip"] (Some [("id", JInt 1)]));
           ("trips/",
            mkFolderContext ["id"; "fare"; "tip"] (Some [("id", JInt 1)]));
           ("rides", mkFolderContext [] None) ]
       = Some ctx.
Proof.
  apply (proj1 (proj2 (proj2 (proj2
           (analyze_json_gz_files_keys_as_given sample_decode_utf8
              sample_json_loads (fun _ => sample_s3) "bucket"
              ["trips"; "trips/"; "rides"] "eu-west-1"))) _
           ltac:(vm_compute; reflexivity))).
  right. left.
Defined.

Lemma analyze_json_gz_files_listing_failure_witness :
  let boto3_client_s3 := fun _ : string =>
    mkS3Client
      (fun _ prefix =>
         if String.eqb prefix "rides/data/"
         then Yield None (Raise (ClientError "AccessDenied"))
         else paginate sample_s3 "bucket" prefix)
      (get_object sample_s3) in
  analyze_json_gz_files sample_decode_utf8 sample_json_loads boto3_client_s3
    "bucket" (["trips"] ++ "rides" :: ["zones"]) "eu-west-1"
  = Raised (ClientError "AccessDenied").
Proof.
  intros boto3_client_s3.
  apply (analyze_json_gz_files_listing_failure sample_decode_utf8
           sample_json_loads boto3_client_s3 "bucket" ["trips"] ["zones"]
           "rides" "eu-west-1").
  - repeat constructor.
  - vm_compute; reflexivity.
Defined.

(** ** The crawler's data sources *)

Lemma append_cancel_l (a b c : string) : a +:+ b = a +:+ c -> b = c.
Proof.
  induction a as [|x a IH]; [done|].
  rewrite !append_cons. intros [= H]. by apply IH.
Qed.

Lemma length_append (a b : string) :
  String.length (a +:+ b) = String.length a + String.length b.
Proof.
  induction a as [|x a IH]; [done|].
  rewrite append_cons. simpl. by rewrite IH.
Qed.

Lemma append_cancel_r (a b c : string) : a +:+ c = b +:+ c -> a = b.
Proof.
  revert b. induction a as [|x a IH]; intros [|y b] H.
  - done.
  - change ("" +:+ c) with c in H. apply (f_equal String.length) in H.
    rewrite append_cons in H. simpl in H. rewrite length_append in H. lia.
  - change ("" +:+ c) with c in H. apply (f_equal String.length) in H.
    rewrite append_cons in H. simpl in H. rewrite length_append in H. lia.
  - rewrite !append_cons in H. injection H as -> H. f_equal. by apply IH.
Qed.

Lemma data_source_path_inj (bucket_name f g : string) :
  data_source_path bucket_name f = data_source_path bucket_name g -> f = g.
Proof.
  unfold data_source_path. intros H.
  do 3 apply append_cancel_l in H. by apply append_cancel_r in H.
Qed.

Section PrepDataFacts.

Variable paginate_prefixes : string -> iter (option (list string)).

Lemma add_prefixes (l : list string) (folders : gset string) :
  foldl (fun folders prefix => folders ∪ {[prefix]}) folders l
  = folders ∪ list_to_set l.
Proof.
  revert folders. induction l as [|p l IH]; intros folders; simpl.
  - set_solver.
  - rewrite IH. set_solver.
Qed.

Lemma collect_folders_outcome (pages : iter (option (list string)))
    (folders : gset string) :
  collect_folders pages folders
  = match outcome pages with
    | Some e => Raised e
    | None =>
        Ok (folders ∪ list_to_set (flat_map (default []) (yielded pages)))
    end.
Proof.
  revert folders. induction pages as [|e|p rest IH]; intros folders; simpl.
  - f_equal. set_solver.
  - done.
  - rewrite IH, add_prefixes. destruct (outcome rest); [done|].
    f_equal. rewrite list_to_set_app_L. set_solver.
Qed.

Lemma list_s3_folders_outcome (bucket_name : string) :
  list_s3_folders paginate_prefixes bucket_name
  = match outcome (paginate_prefixes bucket_name) with
    | Some e => Raised e
    | None =>
        Ok (elements
              (list_to_set
                 (flat_map (default [])
                    (yielded (paginate_prefixes bucket_name)))
               : gset string))
    end.
Proof.
  unfold list_s3_folders, mbind, Result_bind.
  rewrite collect_folders_outcome.
  destruct (outcome (paginate_prefixes bucket_name)); simpl; [done|].
  do 2 f_equal. set_solver.
Qed.

(** X11. [list_s3_folders] returns each prefix found on a page of the
    listing once, however many pages repeat it, and nothing else; an empty
    listing gives the empty list. When the listing raises, so does the
    function. *)
Theorem list_s3_folders_distinct_prefixes (bucket_name : string) :
  match outcome (paginate_prefixes bucket_name) with
  | Some e => list_s3_folders paginate_prefixes bucket_name = Raised e
  | None =>
      exists folders,
        list_s3_folders paginate_prefixes bucket_name = Ok folders
        /\ NoDup folders
        /\ (forall k,
              k ∈ folders <->
              k ∈ flat_map (default [])
                    (yielded (paginate_prefixes bucket_name)))
        /\ (yielded (paginate_prefixes bucket_name) = [] -> folders = [])
  end.
Proof.
  rewrite list_s3_folders_outcome.
  destruct (outcome (paginate_prefixes bucket_name)); simpl; [done|].
  eexists. split; [done|]. split; [apply NoDup_elements|]. split.
  - intros k. rewrite elem_of_elements. set_solver.
  - intros ->. simpl. apply elements_empty_iff. set_solver.
Qed.

(** X12. [get_s3_data_sources] returns one [{"path": ...}] for each
    distinct top-level prefix, the path being [s3://], the bucket, a slash,
    the prefix and [AWSDynamoDB/data/]; no two sources are equal. It raises
    what [list_s3_folders] raises. *)
Theorem get_s3_data_sources_one_per_prefix (bucket_name : string) :
  match list_s3_folders paginate_prefixes bucket_name with
  | Raised e => get_s3_data_sources paginate_prefixes bucket_name = Raised e
  | Ok folders =>
      exists sources,
        get_s3_data_sources paginate_prefixes bucket_name = Ok sources
        /\ sources
           = map (fun folder =>
                    [("path", data_source_path bucket_name folder)]) folders
        /\ length sources = length folders
        /\ NoDup sources
  end.
Proof.
  pose proof (list_s3_folders_outcome bucket_name) as Hlist.
  unfold get_s3_data_sources, mbind, Result_bind.
  destruct (list_s3_folders paginate_prefixes bucket_name) as [folders|e];
    simpl; [|done].
  assert (Hnd : NoDup folders).
  { destruct (outcome (paginate_prefixes bucket_name)); [done|].
    injection Hlist as ->. apply NoDup_elements. }
  assert (Hfold : forall (l : list string) acc,
    foldl (fun data_sources folder =>
             data_sources ++ [[("path", data_source_path bucket_name folder)]])
          acc l
    = acc ++ map (fun folder =>
                    [("path", data_source_path bucket_name folder)]) l).
  { induction l as [|f l IH]; intros acc; simpl.
    - by rewrite app_nil_r.
    - by rewrite IH, <- app_assoc. }
  eexists. split; [done|]. rewrite Hfold. simpl.
  split; [done|]. split; [by rewrite length_map|].
  clear Hlist Hfold. induction Hnd as [|f l Hf Hnd IH]; simpl;
    [constructor|].
  constructor; [|done].
  intros Hin. apply Hf.
  apply list_elem_of_In, in_map_iff in Hin as (g & Hg & Hgin).
  assert (Hp : data_source_path bucket_name g
               = data_source_path bucket_name f) by congruence.
  apply data_source_path_inj in Hp. subst g. by apply list_elem_of_In.
Qed.

End PrepDataFacts.

Lemma list_s3_folders_distinct_prefixes_witness :
  exists folders,
    list_s3_folders sample_prefixes "bucket" = Ok folders
    /\ NoDup folders
    /\ (forall k,
          k ∈ folders <->
          k ∈ flat_map (default []) (yielded (sample_prefixes "bucket")))
    /\ (yielded (sample_prefixes "bucket") = [] -> folders = []).
Proof. exact (list_s3_folders_distinct_prefixes sample_prefixes "bucket"). Defined.

Example get_s3_data_sources_sample :
  get_s3_data_sources sample_prefixes "vehicle-data"
  = Ok (map (fun folder =>
               [("path", "s3://vehicle-data/" +:+ folder +:+ "AWSDynamoDB/data/")])
            (elements ({["trips/"; "rides/"; "zones/"]} : gset string))).
Proof. vm_compute; reflexivity. Qed.

(** ** The local-file sampler, beyond the claims *)

Lemma replace_removes (old new : ascii) (s : string) :
  old <> new -> occurs old (replace old new s) = false.
Proof.
  intros Hne. induction s as [|x s IH]; simpl; [done|].
  rewrite IH, orb_false_r. destruct (Ascii.eqb x old) eqn:E; [|done].
  apply Ascii.eqb_neq. congruence.
Qed.

Lemma write_all_elem (ctx : data_context)
    (ws : list (string * FolderContext)) (kv : string * FolderContext) :
  kv ∈ write_all ctx ws -> kv ∈ ctx \/ kv ∈ ws.
Proof.
  unfold write_all. revert ctx.
  induction ws as [|[k v] ws IH]; intros ctx; simpl; [by left|].
  intros H. apply IH in H as [H|H]; [|right; by right].
  assert (Hset : forall d : data_context,
    kv ∈ dict_set k v d -> kv = (k, v) \/ kv ∈ d).
  { clear. induction d as [|[k' v'] d IHd]; simpl.
    - intros ->%list_elem_of_singleton. by left.
    - destruct (String.eqb k' k) eqn:E.
      + apply String.eqb_eq in E. subst k'.
        intros [->|Hin]%elem_of_cons; [by left|right; by right].
      + intros [->|Hin]%elem_of_cons; [right; by left|].
        destruct (IHd Hin) as [->|?]; [by left|right; by right]. }
  destruct (Hset _ H) as [->|?]; [right; by left|by left].
Qed.

Lemma write_all_length (ctx : data_context)
    (ws : list (string * FolderContext)) :
  length (write_all ctx ws) <= length ctx + length ws.
Proof.
  unfold write_all. revert ctx.
  induction ws as [|[k v] ws IH]; intros ctx; simpl; [lia|].
  etrans; [apply IH|].
  assert (length (dict_set k v ctx) <= S (length ctx)); [|lia].
  clear. induction ctx as [|[k' v'] d IHd]; simpl; [lia|].
  destruct (String.eqb k' k); simpl; lia.
Qed.

Section AnalyzeCsvMore.

Variable read_csv : path -> Result DataFrame.
Variable root_folder : path.

(** X13. A table with a header and no row makes [analyze_csv_files] raise
    [IndexError], at [df.head(1).to_dict(orient='records')[0]]: nothing is
    returned, not even the contexts of the files loaded before it. *)
Theorem analyze_csv_files_empty_table (entries : list fs_entry)
    (pre post : list (path * string)) (dirpath : path) (file : string)
    (df : DataFrame) :
  csv_files root_folder entries = pre ++ (dirpath, file) :: post ->
  Forall (fun f => exists w, csv_entry read_csv root_folder f = Ok w) pre ->
  read_csv (dirpath ++ [file]) = Ok df ->
  df_rows df = [] ->
  analyze_csv_files read_csv root_folder entries = Raised IndexError.
Proof.
  intros Hfiles Hpre Hread Hrows.
  rewrite analyze_csv_files_writes, Hfiles.
  rewrite (comprehension_first_failure _ pre post (dirpath, file) IndexError);
    [done|done|].
  unfold csv_entry, mbind, Result_bind; simpl. rewrite Hread; simpl.
  unfold to_dict_records, df_head; simpl. by rewrite Hrows.
Qed.

(** X14. What [pd.read_csv] raises on a file is raised by
    [analyze_csv_files], when the files before it in the walk were loaded:
    no file is skipped on error, unlike the objects of [process_folder]. *)
Theorem analyze_csv_files_read_failure (entries : list fs_entry)
    (pre post : list (path * string)) (dirpath : path) (file : string)
    (e : exn) :
  csv_files root_folder entries = pre ++ (dirpath, file) :: post ->
  Forall (fun f => exists w, csv_entry read_csv root_folder f = Ok w) pre ->
  read_csv (dirpath ++ [file]) = Raised e ->
  analyze_csv_files read_csv root_folder entries = Raised e.
Proof.
  intros Hfiles Hpre Hread.
  rewrite analyze_csv_files_writes, Hfiles.
  rewrite (comprehension_first_failure _ pre post (dirpath, file) e);
    [done|done|].
  unfold csv_entry, mbind, Result_bind; simpl. by rewrite Hread.
Qed.

(** X16. In the mapping that [analyze_csv_files] returns no key holds a
    space, no key comes twice, there are at most as many entries as files
    loaded, and every entry has a sample record, whose keys are the first
    columns of the entry, one for each value of the first row. *)
Theorem analyze_csv_files_entries (entries : list fs_entry)
    (result : data_context) :
  analyze_csv_files read_csv root_folder entries = Ok result ->
  NoDup (map fst result)
  /\ length result <= length (csv_files root_folder entries)
  /\ Forall (fun kv =>
               occurs " " kv.1 = false
               /\ exists d,
                    sample_data kv.2 = Some d
                    /\ keys d = take (length d) (columns kv.2))
            result.
Proof.
  rewrite analyze_csv_files_writes. unfold mbind, Result_bind.
  destruct (comprehension _ _) as [ws|e] eqn:E; simpl; [|done].
  intros [= <-]. apply comprehension_ok in E.
  split; [apply write_all_NoDup; constructor|]. split.
  - etrans; [apply write_all_length|]. simpl.
    by rewrite (Forall2_length _ _ _ E).
  - apply Forall_forall. intros kv Hkv.
    apply write_all_elem in Hkv as [Hkv|Hkv]; [by apply elem_of_nil in Hkv|].
    apply list_elem_of_lookup in Hkv as [i Hi].
    destruct (Forall2_lookup_r _ _ _ _ _ E Hi) as (f & _ & Hf).
    apply csv_entry_ok_inv in Hf as (df & row & rows & first & _ & _ & ->).
    simpl. split; [by apply replace_removes|].
    eexists. split; [done|].
    generalize (df_columns df) as cols. clear. intros cols. revert row.
    induction cols as [|c cols IH]; intros [|v row]; simpl; try done.
    unfold keys in IH. by rewrite IH.
Qed.

End AnalyzeCsvMore.

Lemma comprehension_ext_in {A B} (f g : A -> Result B) (l : list A) :
  (forall x, x ∈ l -> f x = g x) -> comprehension f l = comprehension g l.
Proof.
  induction l as [|x l IH]; intros H; simpl; [done|].
  rewrite (H x) by (by left). rewrite IH; [done|].
  intros y Hy. apply H. by right.
Qed.

(** X15. [analyze_csv_files] loads no file whose name does not end in
    [.csv]: two readers that agree on the files with such names give the
    same result. Over a tree without such a file it returns the empty
    mapping, whatever the reader does. *)
Theorem analyze_csv_files_reads_csv_only
    (read_csv read_csv' : path -> Result DataFrame) (root_folder : path)
    (entries : list fs_entry) :
  ((forall dirpath file,
      endswith file ".csv" = true ->
      read_csv (dirpath ++ [file]) = read_csv' (dirpath ++ [file])) ->
   analyze_csv_files read_csv root_folder entries
   = analyze_csv_files read_csv' root_folder entries)
  /\ (Forall (fun item : walk_item =>
                Forall (fun file => endswith file ".csv" = false) item.2)
             (os_walk root_folder entries) ->
      analyze_csv_files read_csv root_folder entries = Ok []).
Proof.
  split.
  - intros Hagree. rewrite !analyze_csv_files_writes.
    rewrite (comprehension_ext_in (csv_entry read_csv root_folder)
               (csv_entry read_csv' root_folder)); [done|].
    intros [dirpath file] [Hcsv _]%csv_files_under.
    unfold csv_entry; simpl. by rewrite (Hagree _ _ Hcsv).
  - intros Hnone. rewrite analyze_csv_files_writes.
    assert (Hfiles : csv_files root_folder entries = []); [|by rewrite Hfiles].
    unfold csv_files.
    induction Hnone as [|[[dirpath dirs] files] items Hitem _ IH]; [done|].
    simpl in *. rewrite IH, app_nil_r.
    induction Hitem as [|file files Hfile _ IHf]; [done|].
    simpl. by rewrite Hfile.
Qed.

Lemma analyze_csv_files_empty_table_witness :
  let read_csv := fun p : path =>
    if decide (p = ["data"; "yellow taxi"; "2024"; "feb.csv"])
    then Ok (mkDataFrame ["id"; "tip"; "total"] [])
    else sample_read_csv p in
  analyze_csv_files read_csv sample_root sample_entries = Raised IndexError.
Proof.
  intros read_csv.
  apply (analyze_csv_files_empty_table read_csv sample_root sample_entries
           [(["data"], "zones.csv"); (["data"; "yellow taxi"], "jan.csv")]
           [] ["data"; "yellow taxi"; "2024"] "feb.csv"
           (mkDataFrame ["id"; "tip"; "total"] [])).
  - vm_compute; reflexivity.
  - repeat constructor; eexists; vm_compute; reflexivity.
  - vm_compute; reflexivity.
  - reflexivity.
Defined.

Lemma analyze_csv_files_read_failure_witness :
  let read_csv := fun p : path =>
    if decide (p = ["data"; "yellow taxi"; "jan.csv"])
    then Raised (Exception "Error tokenizing data")
    else sample_read_csv p in
  analyze_csv_files read_csv sample_root sample_entries
  = Raised (Exception "Error tokenizing data").
Proof.
  intros read_csv.
  apply (analyze_csv_files_read_failure read_csv sample_root sample_entries
           [(["data"], "zones.csv")]
           [(["data"; "yellow taxi"; "2024"], "feb.csv")]
           ["data"; "yellow taxi"] "jan.csv").
  - vm_compute; reflexivity.
  - repeat constructor; eexists; vm_compute; reflexivity.
  - vm_compute; reflexivity.
Defined.

Lemma analyze_csv_files_reads_csv_only_witness :
  let read_csv' := fun p : path =>
    if decide (p = ["data"; "yellow taxi"; "notes.txt"])
    then Ok zones_frame else sample_read_csv p in
  analyze_csv_files sample_read_csv sample_root sample_entries
  = analyze_csv_files read_csv' sample_root sample_entries.
Proof.
  intros read_csv'.
  apply (proj1 (analyze_csv_files_reads_csv_only sample_read_csv read_csv'
                  sample_root sample_entries)).
  intros dirpath file Hcsv. unfold read_csv'.
  destruct (decide (dirpath ++ [file] = ["data"; "yellow taxi"; "notes.txt"]))
    as [Heq|]; [|reflexivity].
  exfalso.
  assert (Hlast : last (dirpath ++ [file]) = Some "notes.txt")
    by (by rewrite Heq).
  rewrite last_snoc in Hlast. injection Hlast as ->.
  vm_compute in Hcsv. discriminate Hcsv.
Defined.

Lemma analyze_csv_files_entries_witness :
  NoDup (map fst
           [ ("zones.csv",
              mkFolderContext ["zone"] (Some [("zone", JString "A")]));
             ("yellow_taxi",
              mkFolderContext ["id"; "tip"; "total"]
                (Some [("id", JInt 3); ("tip", JInt 1); ("total", JInt 12)])) ]).
Proof.
  apply (analyze_csv_files_entries sample_read_csv sample_root sample_entries).
  vm_compute; reflexivity.
Defined.

(** ** The Athena readers, beyond the claims *)

Lemma first_values_malformed (rows pre post : list row) (bad : row)
    (e : exn) :
  drop 1 rows = pre ++ bad :: post ->
  Forall (fun r => exists v, r !! 0 = Some (Some v)) pre ->
  first_value bad = Raised e ->
  first_values rows = Raised e.
Proof.
  intros Hrows Hpre Hbad. unfold first_values. rewrite Hrows.
  apply comprehension_first_failure; [|done].
  eapply Forall_impl; [exact Hpre|]. intros r [v Hv]. exists v.
  by apply first_value_ok.
Qed.

(** X17. After [SUCCEEDED], a row after the first one that has no cell
    makes each reader raise [IndexError], and one whose first cell has no
    ['VarCharValue'] makes it raise [KeyError], when the rows between are
    well formed: no list is returned, not even of the values read so far. *)
Theorem readers_raise_on_malformed_row (fuel : nat) (athena : AthenaClient)
    (database_name athena_results_bucket table_name env : string)
    (now n : nat) (pre post : list row) (bad : row) :
  Forall (fun r => exists v, r !! 0 = Some (Some v)) pre ->
  (let id := show_tables_id athena database_name athena_results_bucket in
   breaks_at athena id now n -> n < fuel ->
   get_query_execution athena id (now + n) = "SUCCEEDED" ->
   drop 1 (get_query_results athena id) = pre ++ bad :: post ->
   (bad = [] ->
    get_all_tables fuel athena database_name athena_results_bucket now
    = Some (Raised IndexError, now + n))
   /\ (forall rest, bad = None :: rest ->
       get_all_tables fuel athena database_name athena_results_bucket now
       = Some (Raised (KeyError "VarCharValue"), now + n)))
  /\ (let id := describe_id athena database_name table_name env in
      breaks_at athena id now n -> n < fuel ->
      get_query_execution athena id (now + n) = "SUCCEEDED" ->
      drop 1 (get_query_results athena id) = pre ++ bad :: post ->
      (bad = [] ->
       get_table_schema fuel athena database_name table_name env now
       = Some (Raised IndexError, now + n))
      /\ (forall rest, bad = None :: rest ->
          get_table_schema fuel athena database_name table_name env now
          = Some (Raised (KeyError "VarCharValue"), now + n))).
Proof.
  intros Hpre. split.
  - intros id Hb Hf Hs Hrows. subst id. rewrite get_all_tables_unfold.
    rewrite (read_first_column_succeeded _ _ _ _ _ Hb Hf Hs). split.
    + intros ->.
      by rewrite (first_values_malformed _ _ _ _ IndexError Hrows Hpre
                    eq_refl).
    + intros rest ->.
      by rewrite (first_values_malformed _ _ _ _ (KeyError "VarCharValue")
                    Hrows Hpre eq_refl).
  - intros id Hb Hf Hs Hrows. subst id. rewrite get_table_schema_unfold.
    rewrite (read_first_column_succeeded _ _ _ _ _ Hb Hf Hs). split.
    + intros ->.
      by rewrite (first_values_malformed _ _ _ _ IndexError Hrows Hpre
                    eq_refl).
    + intros rest ->.
      by rewrite (first_values_malformed _ _ _ _ (KeyError "VarCharValue")
                    Hrows Hpre eq_refl).
Qed.

Lemma readers_raise_on_malformed_row_witness :
  let athena :=
    mkAthenaClient (fun query _ _ => query) (fun _ _ => "SUCCEEDED")
      (fun _ => [[Some "tab_name"]; [Some "trips"]; []; [Some "zones"]]) in
  get_all_tables 1 athena "sales" "results" 0
  = Some (Raised IndexError, 0 + 0).
Proof.
  intros athena.
  apply (proj1 (readers_raise_on_malformed_row 1 athena "sales" "results"
                  "trips" "poc" 0 0 [[Some "trips"]] [[Some "zones"]] []
                  ltac:(repeat constructor; by eexists))).
  - split; [reflexivity|]. intros m Hm. lia.
  - lia.
  - reflexivity.
  - reflexivity.
  - reflexivity.
Defined.

(** ** The instruction composer, beyond the claims *)

Lemma append_lines (parts : list string) (ctx : data_context) :
  foldl (fun parts '(folder, context) =>
           parts ++ [example_line folder (columns context)]) parts ctx
  = parts ++ map (fun kv => example_line kv.1 (columns kv.2)) ctx.
Proof.
  revert parts. induction ctx as [|[f c] ctx IH]; intros parts; simpl.
  - by rewrite app_nil_r.
  - by rewrite IH, <- app_assoc.
Qed.

Lemma generate_instruction_cons_context (fuel : nat)
    (athena : AthenaClient) (database_name env : string)
    (kv : string * FolderContext) (ctx : data_context) (now : nat) :
  generate_instruction fuel athena database_name (Some (kv :: ctx)) env now
  = Some (Ok (join " "
                (preamble database_name
                 ++ map (fun kv => example_line kv.1 (columns kv.2))
                        (kv :: ctx))),
          now).
Proof.
  unfold generate_instruction. simpl truthy. cbv iota.
  unfold mbind, mret, Timed_bind, Timed_ret, timed_bind, timed_ret.
  simpl default. by rewrite append_lines.
Qed.

(** X18. For a context mapping that is not empty, the instruction is the
    preamble followed by one line for each entry, in the order of the
    mapping, all joined by single spaces. It is returned at once: Athena is
    not consulted, whatever the client and the environment are. *)
Theorem generate_instruction_supplied_context (fuel : nat)
    (athena : AthenaClient) (database_name env : string)
    (ctx : data_context) (now : nat) :
  ctx <> [] ->
  generate_instruction fuel athena database_name (Some ctx) env now
  = Some (Ok (join " "
                (preamble database_name
                 ++ map (fun kv => example_line kv.1 (columns kv.2)) ctx)),
          now).
Proof.
  intros Hne. destruct ctx as [|kv ctx]; [done|].
  apply generate_instruction_cons_context.
Qed.

Lemma generate_instruction_supplied_context_witness :
  generate_instruction 0 sample_athena "sales"
    (Some (trips_context None)) "poc" 7
  = Some (Ok (join " "
                (preamble "sales"
                 ++ map (fun kv => example_line kv.1 (columns kv.2))
                        (trips_context None))),
          7).
Proof.
  apply (generate_instruction_supplied_context 0 sample_athena "sales" "poc"
           (trips_context None) 7).
  discriminate.
Defined.

Lemma describe_tables_app (fuel : nat) (athena : AthenaClient)
    (database_name env : string) (pre rest : list string) :
  forall (parts : list string) (now : nat),
    describe_tables fuel athena database_name env (pre ++ rest) parts now
    = match describe_tables fuel athena database_name env pre parts now with
      | Some (Ok parts1, later) =>
          describe_tables fuel athena database_name env rest parts1 later
      | other => other
      end.
Proof.
  induction pre as [|t pre IH]; intros parts now; [done|].
  simpl. unfold mbind, Timed_bind, timed_bind.
  destruct (get_table_schema fuel athena database_name t env now)
    as [[[cols|e] later]|]; [|done|done].
  apply IH.
Qed.

Lemma describe_tables_shape (fuel : nat) (athena : AthenaClient)
    (database_name env : string) (tables : list string) :
  forall (parts : list string) (now : nat) (parts' : list string)
         (later : nat),
    describe_tables fuel athena database_name env tables parts now
    = Some (Ok parts', later) ->
    exists colss,
      Forall2 (fun t cols =>
                 exists t0 t1,
                   get_table_schema fuel athena database_name t env t0
                   = Some (Ok cols, t1)) tables colss
      /\ parts' = parts ++ zip_with example_line tables colss.
Proof.
  induction tables as [|t tables IH]; intros parts now parts' later; simpl.
  - intros [= <- <-]. exists []. split; [constructor|by rewrite app_nil_r].
  - unfold mbind, Timed_bind, timed_bind.
    destruct (get_table_schema fuel athena database_name t env now)
      as [[[cols|e] t1]|] eqn:E; [|done|done].
    intros H. apply IH in H as (colss & Hall & ->).
    exists (cols :: colss). split; [constructor; eauto|].
    by rewrite <- app_assoc.
Qed.

(** X19. Without a context, or with an empty one, an instruction that is
    returned is the preamble followed by one line for each table that
    [get_all_tables] listed, in that order, each line made of the columns
    that [get_table_schema] returned for that table. *)
Theorem generate_instruction_discovered (fuel : nat) (athena : AthenaClient)
    (database_name env : string) (data_context : option data_context)
    (now later : nat) (instruction : string) :
  truthy data_context = false ->
  generate_instruction fuel athena database_name data_context env now
  = Some (Ok instruction, later) ->
  exists tables colss listed_at,
    get_all_tables fuel athena database_name (athena_output_of env) now
    = Some (Ok tables, listed_at)
    /\ Forall2 (fun t cols =>
                  exists t0 t1,
                    get_table_schema fuel athena database_name t env t0
                    = Some (Ok cols, t1)) tables colss
    /\ instruction
       = join " " (preamble database_name
                   ++ zip_with example_line tables colss).
Proof.
  intros Hfalsy. unfold generate_instruction. rewrite Hfalsy.
  unfold mbind, mret, Timed_bind, Timed_ret, timed_bind, timed_ret.
  destruct (get_all_tables _ _ _ _ _) as [[[tables|e] t1]|]; [|done|done].
  destruct (describe_tables _ _ _ _ _ _ _) as [[[parts|e] t2]|] eqn:E;
    [|done|done].
  intros [= <- <-]. apply describe_tables_shape in E as (colss & Hall & ->).
  by exists tables, colss, t1.
Qed.

Lemma generate_instruction_discovered_witness :
  exists tables colss listed_at,
    get_all_tables 5 sample_athena "sales" (athena_output_of "poc") 0
    = Some (Ok tables, listed_at)
    /\ Forall2 (fun t cols =>
                  exists t0 t1,
                    get_table_schema 5 sample_athena "sales" t "poc" t0
                    = Some (Ok cols, t1)) tables colss
    /\ join " " (preamble "sales") +:+ " " +:+ "- " +:+ trips_example
       = join " " (preamble "sales" ++ zip_with example_line tables colss).
Proof.
  apply (generate_instruction_discovered 5 sample_athena "sales" "poc"
           None 0 3).
  - reflexivity.
  - vm_compute; reflexivity.
Defined.

Lemma join_prefix (sep : string) (l l' : list string) :
  l <> [] -> exists rest, join sep (l ++ l') = join sep l +:+ rest.
Proof.
  intros Hne. induction l' as [|x l' [rest IH]] using rev_ind.
  - exists "". by rewrite app_nil_r, append_nil_r.
  - exists (rest +:+ sep +:+ x).
    rewrite app_assoc, join_snoc, IH, !append_assoc; [done|].
    by destruct l.
Qed.

(** X20. Every instruction that [generate_instruction] returns, with or
    without a context, begins with the preamble joined by single spaces. *)
Theorem generate_instruction_begins_with_preamble (fuel : nat)
    (athena : AthenaClient) (database_name env : string)
    (data_context : option data_context) (now later : nat)
    (instruction : string) :
  generate_instruction fuel athena database_name data_context env now
  = Some (Ok instruction, later) ->
  exists rest, instruction = join " " (preamble database_name) +:+ rest.
Proof.
  intros H. destruct (truthy data_context) eqn:Et.
  - destruct data_context as [[|kv ctx]|]; try done.
    rewrite generate_instruction_cons_context in H.
    assert (Hi : instruction
                 = join " "
                     (preamble database_name
                      ++ map (fun kv => example_line kv.1 (columns kv.2))
                             (kv :: ctx))) by congruence.
    rewrite Hi. by apply join_prefix.
  - unfold generate_instruction in H. rewrite Et in H.
    unfold mbind, mret, Timed_bind, Timed_ret, timed_bind, timed_ret in H.
    destruct (get_all_tables _ _ _ _ _) as [[[tables|e] t1]|];
      [|done|done].
    destruct (describe_tables _ _ _ _ _ _ _) as [[[parts|e] t2]|] eqn:E;
      [|done|done].
    injection H as <- _.
    apply describe_tables_shape in E as (colss & _ & ->).
    by apply join_prefix.
Qed.

Lemma generate_instruction_begins_with_preamble_witness :
  exists rest,
    join " " (preamble "sales") +:+ " " +:+ "- " +:+ trips_example
    = join " " (preamble "sales") +:+ rest.
Proof.
  apply (generate_instruction_begins_with_preamble 5 sample_athena "sales"
           "poc" None 0 3).
  vm_compute; reflexivity.
Defined.

(** X21. Without a context, or with an empty one, what the listing of the
    tables raises is raised by [generate_instruction]; and when the
    description of one table raises, after those of the tables before it
    succeeded, that exception is raised and the lines already made are
    lost. *)
Theorem generate_instruction_discovery_failure (fuel : nat)
    (athena : AthenaClient) (database_name env : string)
    (data_context : option data_context) (now : nat) :
  truthy data_context = false ->
  (forall e later,
     get_all_tables fuel athena database_name (athena_output_of env) now
     = Some (Raised e, later) ->
     generate_instruction fuel athena database_name data_context env now
     = Some (Raised e, later))
  /\ (forall pre table post listed_at parts described_at e later,
        get_all_tables fuel athena database_name (athena_output_of env) now
        = Some (Ok (pre ++ table :: post), listed_at) ->
        describe_tables fuel athena database_name env pre
          (preamble database_name) listed_at
        = Some (Ok parts, described_at) ->
        get_table_schema fuel athena database_name table env described_at
        = Some (Raised e, later) ->
        generate_instruction fuel athena database_name data_context env now
        = Some (Raised e, later)).
Proof.
  intros Hfalsy. split.
  - intros e later H. unfold generate_instruction. rewrite Hfalsy.
    unfold mbind, Timed_bind, timed_bind. by rewrite H.
  - intros pre table post listed_at parts described_at e later Hlist Hpre Hd.
    unfold generate_instruction. rewrite Hfalsy.
    unfold mbind, Timed_bind, timed_bind. rewrite Hlist.
    rewrite describe_tables_app, Hpre. simpl.
    unfold mbind, Timed_bind, timed_bind. by rewrite Hd.
Qed.

Lemma generate_instruction_discovery_failure_witness :
  generate_instruction 5 sample_athena "broken" None "poc" 0
  = Some (Raised (Exception "Query failed with state FAILED"), 1).
Proof.
  apply (proj1 (generate_instruction_discovery_failure 5 sample_athena
                  "broken" "poc" None 0 eq_refl)).
  vm_compute; reflexivity.
Defined.

(** X22. From the sampler to the composer. A folder whose prefix lists no
    key ending in [.json.gz] is entered with no column, and the instruction
    made from that mapping has for it a line whose query selects nothing,
    from a table named as the folder was given. *)
Theorem empty_folder_example_query
    (decode_utf8 : bytes -> option string)
    (json_loads : string -> Result json)
    (boto3_client_s3 : string -> S3Client)
    (bucket_name folder region : string)
    (fuel : nat) (athena : AthenaClient) (database_name env : string)
    (now : nat) :
  outcome (paginate (boto3_client_s3 region) bucket_name
             (root_folder_of folder)) = None ->
  Forall (fun key => endswith key ".json.gz" = false)
         (listed_keys (boto3_client_s3 region) bucket_name
            (root_folder_of folder)) ->
  analyze_json_gz_files decode_utf8 json_loads boto3_client_s3
    bucket_name [folder] region
  = Ok [(folder, mkFolderContext [] None)]
  /\ generate_instruction fuel athena database_name
       (Some [(folder, mkFolderContext [] None)]) env now
     = Some (Ok (join " " (preamble database_name)
                 +:+ " - Table `" +:+ folder
                 +:+ "` example query: SELECT  FROM "
                 +:+ dq +:+ folder +:+ dq +:+ " LIMIT 5;"),
             now).
Proof.
  intros Hlist Hnone. split.
  - rewrite analyze_json_gz_files_writes. simpl.
    unfold folder_entry, mbind, Result_bind.
    rewrite process_folder_outcome, Hlist. simpl.
    rewrite (records_of_folder_no_match _ _ _ _ _ Hnone).
    unfold all_keys; simpl. by rewrite elements_empty.
  - rewrite generate_instruction_cons_context. simpl map.
    rewrite join_snoc by done. reflexivity.
Qed.

Lemma empty_folder_example_query_witness :
  generate_instruction 0 sample_athena "sales"
    (Some [("rides/", mkFolderContext [] None)]) "poc" 0
  = Some (Ok (join " " (preamble "sales")
              +:+ " - Table `" +:+ "rides/"
              +:+ "` example query: SELECT  FROM "
              +:+ dq +:+ "rides/" +:+ dq +:+ " LIMIT 5;"),
          0).
Proof.
  apply (proj2 (empty_folder_example_query sample_decode_utf8
                  sample_json_loads (fun _ => sample_s3) "bucket" "rides/"
                  "eu-west-1" 0 sample_athena "sales" "poc" 0
                  eq_refl ltac:(constructor))).
Defined.

(** X23. How the listing is cut into pages does not matter: two listings
    that end well and give the same keys in the same order, over the same
    objects, give the same context. *)
Theorem process_folder_page_split_irrelevant
    (decode_utf8 : bytes -> option string)
    (json_loads : string -> Result json) (s3 s3' : S3Client)
    (bucket_name folder_name : string) :
  outcome (paginate s3 bucket_name folder_name) = None ->
  outcome (paginate s3' bucket_name folder_name) = None ->
  listed_keys s3 bucket_name folder_name
  = listed_keys s3' bucket_name folder_name ->
  (forall key,
     get_object s3 bucket_name key = get_object s3' bucket_name key) ->
  process_folder decode_utf8 json_loads s3 bucket_name folder_name
  = process_folder decode_utf8 json_loads s3' bucket_name folder_name.
Proof.
  intros Hok Hok' Hkeys Hget.
  rewrite !process_folder_outcome, Hok, Hok'.
  assert (Hrs :
    records_of_folder decode_utf8 json_loads s3 bucket_name folder_name
    = records_of_folder decode_utf8 json_loads s3' bucket_name folder_name).
  { unfold records_of_folder. rewrite Hkeys. apply flat_map_ext.
    intros key. unfold records_of_object. by rewrite Hget. }
  simpl. by rewrite Hrs.
Qed.

Lemma process_folder_page_split_irrelevant_witness :
  let s3' :=
    mkS3Client
      (fun _ _ =>
         Yield (Some [ "trips/data/a.json.gz"; "trips/data/notes.txt";
                       "trips/data/b.json.gz"; "trips/data/c.json.gz" ])
               StopIteration)
      (get_object sample_s3) in
  process_folder sample_decode_utf8 sample_json_loads sample_s3
    "bucket" "trips/data/"
  = process_folder sample_decode_utf8 sample_json_loads s3'
      "bucket" "trips/data/".
Proof.
  intros s3'.
  apply (process_folder_page_split_irrelevant sample_decode_utf8
           sample_json_loads sample_s3 s3' "bucket" "trips/data/");
    reflexivity.
Defined.

Lemma process_folder_raises_with_listing_witness :
  let s3 :=
    mkS3Client
      (fun _ _ => Yield (Some ["trips/data/a.json.gz"])
                        (Raise (ClientError "AccessDenied")))
      (get_object sample_s3) in
  process_folder sample_decode_utf8 sample_json_loads s3
    "bucket" "trips/data/"
  = Raised (ClientError "AccessDenied").
Proof.
  intros s3.
  apply (proj1 (process_folder_raises_with_listing sample_decode_utf8
                  sample_json_loads s3 "bucket" "trips/data/")).
  reflexivity.
Defined.
